(** * Release orchestration script of tusky-design: model and properties

    Shallow embedding of [scripts/release.ts].  The script is a Node.js
    command line program: it parses its arguments, stages the packages into
    a build directory, shells out to the versioning tool and then either
    creates a hosted release (local run) or publishes to the registry (run
    under continuous integration).

    The embedding keeps the structure of the script:
    - [Js]      the string and number primitives of the language it uses;
    - [Fs]      the file tree below the working directory and the [fs-extra]
                operations the script calls;
    - the functions of [release.ts] themselves, written in a small monad
      threading the process state, with exceptions and [process.exit].

    The commands the script runs (the versioning tool, the registry query,
    the publish command) are outside of it and appear as a parameter
    [shell]; every property holds for every [shell]. *)

From Stdlib Require Import ZArith List String Ascii Bool Lia.
Import ListNotations.
Local Open Scope string_scope.
Local Open Scope bool_scope.

(* ===================================================================== *)
(** ** JavaScript strings and numbers *)
(* ===================================================================== *)

(** Strings are sequences of code units below 256 ([string] of the standard
    library).  The numbers of the script are the results of [parseInt], which
    are doubles with an integer value, or [NaN]: such a number is given by
    its value in [Z], [None] standing for [NaN].  [parseInt] rounds what it
    reads to the nearest double ([toDouble]), so that two numerals above 2^53
    may be read as the same number. *)

Module Js.

(** [s.startsWith(p)] *)
Fixpoint startsWith (s p : string) {struct p} : bool :=
  match p with
  | EmptyString => true
  | String a p' =>
      match s with
      | EmptyString => false
      | String b s' => Ascii.eqb b a && startsWith s' p'
      end
  end.

(** [s.includes(sub)] *)
Fixpoint includes (s sub : string) : bool :=
  startsWith s sub ||
  match s with
  | EmptyString => false
  | String _ r => includes r sub
  end.

(** [s.split(sep)] for a separator of one code unit, the only form the
    script uses.  The result is never empty. *)
Fixpoint split (s : string) (sep : ascii) : list string :=
  match s with
  | EmptyString => [EmptyString]
  | String c r =>
      if Ascii.eqb c sep then EmptyString :: split r sep
      else match split r sep with
           | seg :: segs => String c seg :: segs
           | [] => [String c EmptyString]
           end
  end.

(** [arr[i]]: [None] is [undefined]. *)
Definition index {A : Type} (arr : list A) (i : nat) : option A :=
  nth_error arr i.

(** [arr[i]] where the element is used as a string right away.  Every use in
    the script is such that the element exists (index 0 of a split, or
    index 1 of the split of a string that contains the separator, see
    [JsFacts.index_split_defined]); the default is never returned there. *)
Definition indexStr (arr : list string) (i : nat) : string :=
  nth i arr EmptyString.

(** [arr.includes(x)] on an array of strings. *)
Definition arrayIncludes (arr : list string) (x : string) : bool :=
  existsb (String.eqb x) arr.

(** White space of the language below code unit 256: TAB, LF, VT, FF, CR,
    SP and NBSP. *)
Definition isWhiteSpace (c : ascii) : bool :=
  let n := nat_of_ascii c in
  ((9 <=? n)%nat && (n <=? 13)%nat) || (n =? 32)%nat || (n =? 160)%nat.

Fixpoint trimStart (s : string) : string :=
  match s with
  | EmptyString => EmptyString
  | String c r => if isWhiteSpace c then trimStart r else s
  end.

Fixpoint trimEnd (s : string) : string :=
  match s with
  | EmptyString => EmptyString
  | String c r =>
      match trimEnd r with
      | EmptyString => if isWhiteSpace c then EmptyString else String c EmptyString
      | r' => String c r'
      end
  end.

(** [s.trim()] *)
Definition trim (s : string) : string := trimEnd (trimStart s).

(** Truthiness of a string: every string but the empty one. *)
Definition truthy (s : string) : bool :=
  match s with
  | EmptyString => false
  | String _ _ => true
  end.

(** Truthiness of a value that may be [undefined]. *)
Definition truthyOpt (v : option string) : bool :=
  match v with
  | Some s => truthy s
  | None => false
  end.

Definition digitValue (c : ascii) : option Z :=
  let n := nat_of_ascii c in
  if (48 <=? n)%nat && (n <=? 57)%nat then Some (Z.of_nat (n - 48)) else None.

(** Value of the longest prefix of decimal digits; [acc] is the value read so
    far, [None] when no digit was read yet. *)
Fixpoint digits (s : string) (acc : option Z) : option Z :=
  match s with
  | EmptyString => acc
  | String c r =>
      match digitValue c with
      | Some d =>
          digits r (Some (10 * match acc with Some a => a | None => 0 end + d)%Z)
      | None => acc
      end
  end.

(** [Infinity], as far as the script can tell: it only compares numbers
    with [<], and [2^1024] is above every finite double as [Infinity] is. *)
Definition infinity : Z := (2 ^ 1024)%Z.

(** The double nearest to a natural number [n], ties going to the even
    significand.  Below 2^53 every integer is a double.  From there on a
    double keeps 53 significant bits: with [e] the number of bits dropped,
    [n = q * 2^e + r] is rounded to [q * 2^e] or [(q + 1) * 2^e]; what would
    pass the largest finite double is [Infinity]. *)
Definition toDouble (n : Z) : Z :=
  if (n <? 2 ^ 53)%Z then n
  else
    let e := (Z.log2 n - 52)%Z in
    let q := Z.shiftr n e in
    let r := Z.land n (Z.ones e) in
    let half := Z.shiftl 1 (e - 1) in
    let q' :=
      if (half <? r)%Z || ((r =? half)%Z && Z.odd q) then (q + 1)%Z else q in
    Z.min (Z.shiftl q' e) infinity.

(** [parseInt(s, 10)]: leading white space is skipped, one sign is accepted,
    then the longest prefix of digits is read, [NaN] when there is none; the
    integer read is rounded to a double and the sign applied. *)
Definition parseInt (s : string) : option Z :=
  match trimStart s with
  | String "-"%char r => option_map (fun n => (- toDouble n)%Z) (digits r None)
  | String "+"%char r => option_map toDouble (digits r None)
  | r => option_map toDouble (digits r None)
  end.

(** [a < b] on numbers: false as soon as one side is [NaN]. *)
Definition lt (a b : option Z) : bool :=
  match a, b with
  | Some x, Some y => (x <? y)%Z
  | _, _ => false
  end.

End Js.

(* ===================================================================== *)
(** ** The file tree and the file operations *)
(* ===================================================================== *)

Module Fs.

(** A node of the file tree.  The entries of a directory are kept in the
    order [readdir] lists them. *)
#[warnings="-register-all"]
Inductive Node : Type :=
| File (data : list Byte.byte)
| Dir (entries : list (string * Node)).

Definition Entries : Type := list (string * Node).

(** A location below the working directory, one name per level. *)
Definition Path : Type := list string.

Fixpoint lookup (name : string) (es : Entries) : option Node :=
  match es with
  | [] => None
  | (n, v) :: rest => if String.eqb name n then Some v else lookup name rest
  end.

Fixpoint unbind (name : string) (es : Entries) : Entries :=
  match es with
  | [] => []
  | (n, v) :: rest =>
      if String.eqb name n then unbind name rest else (n, v) :: unbind name rest
  end.

(** Bind [name] to [v]: in place when the name is bound, at the end
    otherwise. *)
Fixpoint assign (name : string) (v : Node) (es : Entries) : Entries :=
  match es with
  | [] => [(name, v)]
  | (n, x) :: rest =>
      if String.eqb name n then (n, v) :: rest else (n, x) :: assign name v rest
  end.

Definition isDirectory (n : Node) : bool :=
  match n with
  | Dir _ => true
  | File _ => false
  end.

(** The node a path leads to. *)
Fixpoint walk (n : Node) (p : Path) : option Node :=
  match p with
  | [] => Some n
  | name :: rest =>
      match n with
      | Dir es =>
          match lookup name es with
          | Some c => walk c rest
          | None => None
          end
      | File _ => None
      end
  end.

(** Replace the node at a path whose parent exists; [None] when the parent is
    missing or is a file. *)
Fixpoint write (p : Path) (v : Node) (n : Node) : option Node :=
  match p with
  | [] => Some v
  | name :: rest =>
      match n with
      | Dir es =>
          match rest with
          | [] => Some (Dir (assign name v es))
          | _ :: _ =>
              match lookup name es with
              | Some c =>
                  match write rest v c with
                  | Some c' => Some (Dir (assign name c' es))
                  | None => None
                  end
              | None => None
              end
          end
      | File _ => None
      end
  end.

(** Remove the node at a path, with everything below it; nothing happens
    when there is none. *)
Fixpoint erase (p : Path) (n : Node) : Node :=
  match p with
  | [] => n
  | name :: rest =>
      match n with
      | Dir es =>
          match rest with
          | [] => Dir (unbind name es)
          | _ :: _ =>
              match lookup name es with
              | Some c => Dir (assign name (erase rest c) es)
              | None => n
              end
          end
      | File _ => n
      end
  end.

(** [path.join(dir, name)] for a normalised directory and one entry name:
    only the root directory ends with the separator. *)
Fixpoint endsWithSlash (s : string) : bool :=
  match s with
  | EmptyString => false
  | String c EmptyString => Ascii.eqb c "/"%char
  | String _ r => endsWithSlash r
  end.

Definition pathJoin (dir name : string) : string :=
  if endsWithSlash dir then dir ++ name else dir ++ "/" ++ name.

(** The absolute path string of a location, from the working directory. *)
Definition render (cwd : string) (p : Path) : string :=
  fold_left pathJoin p cwd.

(** What [fs.copy(src, dest, {filter})] reads: the filter is asked for every
    item with its source path, the root included; an item it rejects is
    skipped together with everything below it; file contents are taken as
    they are. *)
Fixpoint copyTree (filter : string -> bool) (src : string) (n : Node)
  : option Node :=
  if filter src then
    match n with
    | File data => Some (File data)
    | Dir entries =>
        Some (Dir ((fix items (es : Entries) : Entries :=
                      match es with
                      | [] => []
                      | (name, child) :: rest =>
                          match copyTree filter (pathJoin src name) child with
                          | Some c => (name, c) :: items rest
                          | None => items rest
                          end
                      end) entries))
    end
  else None.

(** The entries of a copied directory, as the inner loop of [copyTree]
    builds them. *)
Fixpoint copyEntries (filter : string -> bool) (src : string) (es : Entries)
  : Entries :=
  match es with
  | [] => []
  | (name, child) :: rest =>
      match copyTree filter (pathJoin src name) child with
      | Some c => (name, c) :: copyEntries filter src rest
      | None => copyEntries filter src rest
      end
  end.

(** What [fs.copy] leaves at the destination: the copied tree when nothing
    is there; otherwise directories are merged and files overwritten, and a
    directory cannot replace a file nor a file a directory ([None]). *)
Fixpoint overlay (dst : option Node) (img : Node) {struct img} : option Node :=
  match dst with
  | None => Some img
  | Some old =>
      match img, old with
      | File data, File _ => Some (File data)
      | Dir items, Dir es =>
          option_map Dir
            ((fix go (items : Entries) (es : Entries) : option Entries :=
                match items with
                | [] => Some es
                | (name, child) :: rest =>
                    match overlay (lookup name es) child with
                    | Some c => go rest (assign name c es)
                    | None => None
                    end
                end) items es)
      | _, _ => None
      end
  end.

(** What is seen of a node without descending: a file with its bytes, or a
    directory. *)
Inductive Kind : Type :=
| IsFile (data : list Byte.byte)
| IsDir.

Definition kind (n : Node) : Kind :=
  match n with
  | File data => IsFile data
  | Dir _ => IsDir
  end.

End Fs.

(* ===================================================================== *)
(** ** The process: state, exceptions and exit *)
(* ===================================================================== *)

Inductive Stdio : Type :=
| StdioPipe      (* the default: the output is returned to the caller *)
| StdioInherit   (* [stdio: [0, 1, 2]] *)
| StdioIgnore.   (* [stdio: 'ignore'] *)

(** What the process does to the outside, in the order it does it. *)
Inductive Event : Type :=
| ConsoleLog (line : string)
| FsRemove (path : string)
| FsEnsureDir (path : string)
| FsReaddir (path : string)
| FsStat (path : string)
| FsCopy (src dest : string)
| ExecSync (cmd : string) (io : Stdio).

(** The state of a run: the arguments and environment it was started with,
    the working directory with the file tree below it, and the events so
    far. *)
Record World : Type := mkWorld {
  argv : list string;            (* [process.argv] *)
  env_CI : option string;        (* [process.env.CI] *)
  cwd : string;                  (* [process.cwd()] *)
  files : Fs.Entries;            (* the entries of the working directory *)
  trace : list Event
}.

Definition emit (e : Event) (w : World) : World :=
  mkWorld (argv w) (env_CI w) (cwd w) (files w) (trace w ++ [e]).

Definition setFiles (fs : Fs.Entries) (w : World) : World :=
  mkWorld (argv w) (env_CI w) (cwd w) fs (trace w).

Inductive JsError : Type :=
| Error (message : string)             (* [new Error(message)] *)
| ExecError (cmd : string)             (* a command that did not exit with 0 *)
| FsError (syscall : string) (path : string).

(** How a computation ends: with a value, with an exception, or by
    [process.exit]. *)
Inductive Outcome (A : Type) : Type :=
| Returned (a : A)
| Thrown (e : JsError)
| Exited (code : Z).

Arguments Returned {A} a.
Arguments Thrown {A} e.
Arguments Exited {A} code.

Definition M (A : Type) : Type := World -> Outcome A * World.

Definition ret {A : Type} (a : A) : M A := fun w => (Returned a, w).

Definition bind {A B : Type} (m : M A) (k : A -> M B) : M B :=
  fun w =>
    match m w with
    | (Returned a, w') => k a w'
    | (Thrown e, w') => (Thrown e, w')
    | (Exited code, w') => (Exited code, w')
    end.

Declare Scope js_scope.
Delimit Scope js_scope with js.
Notation "x <- m ;; k" := (bind m (fun x => k))
  (at level 61, m at next level, right associativity) : js_scope.
Notation "m ;; k" := (bind m (fun _ => k))
  (at level 61, right associativity) : js_scope.
Local Open Scope js_scope.

Definition throw {A : Type} (e : JsError) : M A := fun w => (Thrown e, w).

(** [process.exit(code)] *)
Definition exit {A : Type} (code : Z) : M A := fun w => (Exited code, w).

(** [try { body } catch { handler }] *)
Definition tryCatch {A : Type} (body : M A) (handler : M A) : M A :=
  fun w =>
    match body w with
    | (Thrown _, w') => handler w'
    | r => r
    end.

(** [console.log(line)] *)
Definition consoleLog (line : string) : M unit :=
  fun w => (Returned tt, emit (ConsoleLog line) w).

(** What a command did: its output when it exited with 0, and the file tree
    it left. *)
Record ExecResult : Type := mkExecResult {
  exec_stdout : option string;
  exec_files : Fs.Entries
}.

(** *** File operations of [fs-extra] on the process state *)

(** [fs.remove(p)] *)
Definition fsRemove (p : Fs.Path) : M unit :=
  fun w =>
    let w1 := emit (FsRemove (Fs.render (cwd w) p)) w in
    match Fs.erase p (Fs.Dir (files w1)) with
    | Fs.Dir es => (Returned tt, setFiles es w1)
    | Fs.File _ => (Returned tt, w1)
    end.

(** [fs.ensureDir(p)]; the script calls it for a child of the working
    directory, so no parent has to be created. *)
Definition fsEnsureDir (p : Fs.Path) : M unit :=
  fun w =>
    let path := Fs.render (cwd w) p in
    let w1 := emit (FsEnsureDir path) w in
    match Fs.walk (Fs.Dir (files w1)) p with
    | Some (Fs.Dir _) => (Returned tt, w1)
    | Some (Fs.File _) => (Thrown (FsError "mkdir" path), w1)
    | None =>
        match Fs.write p (Fs.Dir []) (Fs.Dir (files w1)) with
        | Some (Fs.Dir es) => (Returned tt, setFiles es w1)
        | _ => (Thrown (FsError "mkdir" path), w1)
        end
    end.

(** [fs.readdir(p)] *)
Definition fsReaddir (p : Fs.Path) : M (list string) :=
  fun w =>
    let path := Fs.render (cwd w) p in
    let w1 := emit (FsReaddir path) w in
    match Fs.walk (Fs.Dir (files w1)) p with
    | Some (Fs.Dir es) => (Returned (map fst es), w1)
    | _ => (Thrown (FsError "scandir" path), w1)
    end.

(** [fs.stat(p)]; the node stands for the [Stats] object. *)
Definition fsStat (p : Fs.Path) : M Fs.Node :=
  fun w =>
    let path := Fs.render (cwd w) p in
    let w1 := emit (FsStat path) w in
    match Fs.walk (Fs.Dir (files w1)) p with
    | Some n => (Returned n, w1)
    | None => (Thrown (FsError "stat" path), w1)
    end.

(** [fs.copy(src, dest, {filter})]; when it fails the files are left as
    they were (what a failed copy has already written is not modelled). *)
Definition fsCopy (src dest : Fs.Path) (filter : string -> bool) : M unit :=
  fun w =>
    let srcPath := Fs.render (cwd w) src in
    let w1 := emit (FsCopy srcPath (Fs.render (cwd w) dest)) w in
    match Fs.walk (Fs.Dir (files w1)) src with
    | None => (Thrown (FsError "lstat" srcPath), w1)
    | Some n =>
        match Fs.copyTree filter srcPath n with
        | None => (Returned tt, w1)
        | Some img =>
            match Fs.overlay (Fs.walk (Fs.Dir (files w1)) dest) img with
            | None => (Thrown (FsError "copy" srcPath), w1)
            | Some merged =>
                match Fs.write dest merged (Fs.Dir (files w1)) with
                | Some (Fs.Dir es) => (Returned tt, setFiles es w1)
                | _ => (Thrown (FsError "copy" srcPath), w1)
                end
            end
        end
    end.

(* ===================================================================== *)
(** ** The script *)
(* ===================================================================== *)

(** [interface Options] *)
Record Options : Type := mkOptions {
  version : string;
  dryRun : bool;
  from : option string;
  gitRemote : string
}.

(** The body of the loop of [parseArgs], for one argument. *)
Definition parseArg (options : Options) (arg : string) : Options :=
  if String.eqb arg "--dry-run" then
    mkOptions (version options) true (from options) (gitRemote options)
  else if Js.startsWith arg "--from=" then
    mkOptions (version options) (dryRun options)
              (Js.index (Js.split arg "="%char) 1) (gitRemote options)
  else if Js.startsWith arg "--git-remote=" then
    mkOptions (version options) (dryRun options) (from options)
              (Js.indexStr (Js.split arg "="%char) 1)
  else if negb (Js.startsWith arg "--") then
    mkOptions arg (dryRun options) (from options) (gitRemote options)
  else options.

Definition defaultOptions : Options :=
  mkOptions "minor" false None "origin".

(** [parseArgs()]; the argument is [process.argv]. *)
Definition parseArgs (processArgv : list string) : Options :=
  let args := skipn 2 processArgv in
  fold_left parseArg args defaultOptions.

Definition isRelativeVersionKeyword (version : string) : bool :=
  Js.arrayIncludes
    ["major"; "minor"; "patch"; "premajor"; "preminor"; "prepatch";
     "prerelease"]
    version.

(** The filter given to [fs.copy]. *)
Definition copyFilter (src : string) : bool :=
  negb (Js.includes src "node_modules") && negb (Js.includes src "__tests__").

Definition buildDir : Fs.Path := ["build"].
Definition packagesDir : Fs.Path := ["packages"].

(** The loop of [copyPackagesToBuild] over the names [readdir] returned. *)
Fixpoint copyEach (packageDirs : list string) : M unit :=
  match packageDirs with
  | [] => ret tt
  | pkg :: rest =>
      let srcDir := (packagesDir ++ [pkg])%list in
      let destDir := (buildDir ++ [pkg])%list in
      stats <- fsStat srcDir ;;
      if negb (Fs.isDirectory stats) then copyEach rest
      else fsCopy srcDir destDir copyFilter ;; copyEach rest
  end.

Definition copyPackagesToBuild : M unit :=
  fsRemove buildDir ;;
  fsEnsureDir buildDir ;;
  packageDirs <- fsReaddir packagesDir ;;
  copyEach packageDirs.

(** The file operations of the loop, for the entries [pkgs] of the packages
    directory: every entry is examined, the directories are copied. *)
Definition copyEachEvents (cwd : string) (pkgs : Fs.Entries) : list Event :=
  flat_map
    (fun entry : string * Fs.Node =>
       let (pkg, stats) := entry in
       FsStat (Fs.render cwd (packagesDir ++ [pkg])%list) ::
       if Fs.isDirectory stats
       then [FsCopy (Fs.render cwd (packagesDir ++ [pkg])%list)
                    (Fs.render cwd (buildDir ++ [pkg])%list)]
       else [])
    pkgs.

(** What the loop leaves in the build directory for one entry of the
    packages directory: the filtered copy of a directory, nothing for a
    file. *)
Definition stagedEntry (cwd pkg : string) (stats : Fs.Node) : option Fs.Node :=
  if Fs.isDirectory stats
  then Fs.copyTree copyFilter (Fs.render cwd (packagesDir ++ [pkg])%list) stats
  else None.

(** The file operations of [copyPackagesToBuild], in order. *)
Definition copyPackagesEvents (cwd : string) (pkgs : Fs.Entries) : list Event :=
  [FsRemove (Fs.render cwd buildDir);
   FsEnsureDir (Fs.render cwd buildDir);
   FsReaddir (Fs.render cwd packagesDir)] ++ copyEachEvents cwd pkgs.

(** The commands among some events, in order. *)
Definition commands (events : list Event) : list string :=
  flat_map
    (fun e => match e with ExecSync cmd _ => [cmd] | _ => [] end)
    events.

Definition npmViewCmd : string :=
  "npm view @juristr/tusky-design version 2>/dev/null".

Definition versionCmd (version : string) : string :=
  "pnpm nx release version --specifier " ++ version.

Definition changelogCmd (options : Options) : string :=
  let cmd :=
    "pnpm nx release changelog " ++ version options ++ " --interactive workspace" in
  let cmd :=
    if Js.truthyOpt (from options)
    then cmd ++ " --from " ++ match from options with Some r => r | None => EmptyString end
    else cmd in
  if Js.truthy (gitRemote options)
  then cmd ++ " --git-remote " ++ gitRemote options
  else cmd.

Definition publishCmd (distTag : string) : string :=
  "pnpm nx release publish --registry=https://registry.npmjs.org --tag=" ++ distTag.

Definition invalidVersionMessage : string :=
  "Must use exact semver version for releases (e.g., 1.2.0)".

(** The test of the first [if] of [determineDistTag], with the one nested
    in it. *)
Definition isNextPrerelease (version : string) : bool :=
  if Js.includes version "-" then
    let prerelease := Js.indexStr (Js.split version "-"%char) 1 in
    Js.startsWith prerelease "beta" ||
    Js.startsWith prerelease "rc" ||
    Js.startsWith prerelease "alpha"
  else false.

(** The comparison of the major versions inside the [try] block. *)
Definition isOlderMajor (version latestVersion : string) : bool :=
  let currentMajor := Js.parseInt (Js.indexStr (Js.split version "."%char) 0) in
  let latestMajor := Js.parseInt (Js.indexStr (Js.split latestVersion "."%char) 0) in
  Js.lt currentMajor latestMajor.

Section Script.

(** The commands the script runs are outside of it: [shell cmd w] is what
    the command [cmd] does when started in state [w]. *)
Variable shell : string -> World -> ExecResult.

(** [execSync(cmd, {stdio, maxBuffer})]: throws when the command does not
    exit with 0; a command stopped for exceeding [maxBuffer] is one of
    these failures of [shell]. *)
Definition afterExec (cmd : string) (io : Stdio) (w : World) : World :=
  setFiles (exec_files (shell cmd w)) (emit (ExecSync cmd io) w).

Definition execSync (cmd : string) (io : Stdio) : M string :=
  fun w =>
    match exec_stdout (shell cmd w) with
    | Some out => (Returned out, afterExec cmd io w)
    | None => (Thrown (ExecError cmd), afterExec cmd io w)
    end.

(** [determineDistTag(version)].  The [try] block yields [Some tag] when it
    returns from the function and [None] when it falls through. *)
Definition determineDistTag (version : string) : M string :=
  if isNextPrerelease version then ret "next"
  else
    early <- tryCatch
               (out <- execSync npmViewCmd StdioPipe ;;
                let latestVersion := Js.trim out in
                if Js.truthy latestVersion then
                  if isOlderMajor version latestVersion
                  then ret (Some "previous")
                  else ret None
                else ret None)
               (ret None) ;;
    match early with
    | Some tag => ret tag
    | None => ret "latest"
    end.

Definition createGitHubRelease (options : Options) : M unit :=
  if isRelativeVersionKeyword (version options) then
    throw (Error invalidVersionMessage)
  else
    consoleLog "Copying packages to build directory..." ;;
    copyPackagesToBuild ;;
    consoleLog ("Bumping versions to " ++ version options ++ "...") ;;
    execSync (versionCmd (version options)) StdioInherit ;;
    consoleLog "Creating changelog and GitHub Release..." ;;
    execSync (changelogCmd options) StdioInherit ;;
    consoleLog (String "010"%char
                  "GitHub Release created! Check GitHub Actions for publish status.") ;;
    exit 0%Z.

Definition publishToNpm (options : Options) : M unit :=
  consoleLog "Copying packages to build directory..." ;;
  copyPackagesToBuild ;;
  consoleLog ("Bumping versions to " ++ version options ++ "...") ;;
  execSync (versionCmd (version options)) StdioIgnore ;;
  distTag <- determineDistTag (version options) ;;
  consoleLog ("Publishing with tag: " ++ distTag) ;;
  (if dryRun options then
     consoleLog ("[DRY RUN] Would execute: " ++ publishCmd distTag) ;;
     exit 0%Z
   else ret tt) ;;
  execSync (publishCmd distTag) StdioInherit ;;
  ret tt.

(** The body of the script. *)
Definition main : M unit :=
  fun w =>
    let options := parseArgs (argv w) in
    if negb (Js.truthyOpt (env_CI w))
    then createGitHubRelease options w
    else publishToNpm options w.

End Script.

(* ===================================================================== *)
(** ** What a run may do *)
(* ===================================================================== *)

(** A failure that comes from outside: a command or a file operation, as
    opposed to an [Error] the script throws itself. *)
Definition externalFailure (e : JsError) : Prop :=
  match e with
  | Error _ => False
  | ExecError _ => True
  | FsError _ _ => True
  end.

(** [runs P Q m]: from every state, [m] only adds events that satisfy [P]
    to the trace and only throws exceptions that satisfy [Q]. *)
Definition runs {A : Type} (P : Event -> Prop) (Q : JsError -> Prop) (m : M A)
  : Prop :=
  forall w,
    exists events,
      trace (snd (m w)) = (trace w ++ events)%list /\
      Forall P events /\
      match fst (m w) with
      | Thrown e => Q e
      | _ => True
      end.

(** The commands of the staging path: the version bump and the changelog,
    both attached to the terminal. *)
Definition stagingEvent (options : Options) (e : Event) : Prop :=
  match e with
  | ExecSync cmd io =>
      (cmd = versionCmd (version options) \/ cmd = changelogCmd options) /\
      io = StdioInherit
  | _ => True
  end.

(** The commands of the publish path: the silent version bump, the registry
    query and, outside of a dry run, the publish command with some tag. *)
Definition publishEvent (options : Options) (e : Event) : Prop :=
  match e with
  | ExecSync cmd io =>
      (cmd = versionCmd (version options) /\ io = StdioIgnore) \/
      (cmd = npmViewCmd /\ io = StdioPipe) \/
      (dryRun options = false /\
       exists distTag, cmd = publishCmd distTag /\ io = StdioInherit)
  | _ => True
  end.

(** [neverReturns m]: [m] always ends with an exception or with
    [process.exit], never by handing a value back to its caller. *)
Definition neverReturns {A : Type} (m : M A) : Prop :=
  forall w a, fst (m w) <> Returned a.


(** [exitsWith0 m]: when [m] ends with [process.exit], the status is 0. *)
Definition exitsWith0 {A : Type} (m : M A) : Prop :=
  forall w code, fst (m w) = Exited code -> code = 0%Z.

(** [onlyBuild m]: whatever [m] does to the files, the entries of the
    working directory other than [build] are the ones it found, and the
    working directory is the same. *)
Definition onlyBuild {A : Type} (m : M A) : Prop :=
  forall w,
    Fs.unbind "build" (files (snd (m w))) = Fs.unbind "build" (files w) /\
    cwd (snd (m w)) = cwd w.

(** [diskOnly m]: the outcome of [m] and the files it leaves depend on the
    files and the working directory it starts from, not on the arguments,
    the environment or what happened before. *)
Definition diskOnly {A : Type} (m : M A) : Prop :=
  forall w w',
    files w = files w' -> cwd w = cwd w' ->
    fst (m w) = fst (m w') /\
    files (snd (m w)) = files (snd (m w')) /\
    cwd (snd (m w)) = cwd (snd (m w')).

(* ===================================================================== *)
(** ** Decimal numerals *)
(* ===================================================================== *)




(* ===================================================================== *)
(** ** Sample runs *)
(* ===================================================================== *)

(** A registry that answers [published] (or fails, for [None]); every other
    command succeeds and leaves the files alone. *)
Definition sampleShell (published : option string) (cmd : string) (w : World)
  : ExecResult :=
  mkExecResult (if String.eqb cmd npmViewCmd then published else Some EmptyString)
               (files w).

(** A shell on which the command [bad] fails and every other command
    succeeds without output. *)
Definition shellFailingOn (bad : string) (cmd : string) (w : World)
  : ExecResult :=
  mkExecResult (if String.eqb cmd bad then None else Some EmptyString)
               (files w).

Definition sampleFiles : Fs.Entries :=
  [ ("build", Fs.Dir [("stale.txt", Fs.File [Byte.x6f; Byte.x6c; Byte.x64])]);
    ("packages",
     Fs.Dir
       [ ("ui",
          Fs.Dir
            [ ("src",
               Fs.Dir
                 [ ("rating.tsx", Fs.File [Byte.x52; Byte.x0a]);
                   ("__tests__",
                    Fs.Dir [("rating.spec.tsx", Fs.File [Byte.x54])]) ]);
              ("node_modules", Fs.Dir [("clsx", Fs.Dir [])]);
              ("package.json", Fs.File [Byte.x7b; Byte.x7d]) ]);
         ("README.md", Fs.File [Byte.x23]) ]);
    ("package.json", Fs.File [Byte.x7b; Byte.x7d]) ].

Definition sampleWorld (ci : option string) (args : list string) : World :=
  mkWorld ("node" :: "scripts/release.ts" :: args) ci "/repo" sampleFiles [].

(* ===================================================================== *)
(** ** Facts about the string primitives *)
(* ===================================================================== *)

Module JsFacts.

Lemma startsWith_empty (s : string) : Js.startsWith s EmptyString = true.
Proof. destruct s; reflexivity. Qed.

Lemma startsWith_app (s t p : string) :
  Js.startsWith s p = true -> Js.startsWith (s ++ t) p = true.
Proof.
  revert s; induction p as [|a p IH]; intros s H.
  - reflexivity.
  - destruct s as [|b s]; simpl in *; [discriminate|].
    apply andb_true_iff in H as [Hb Hs].
    rewrite Hb, (IH _ Hs); reflexivity.
Qed.

Lemma startsWith_self_app (p t : string) : Js.startsWith (p ++ t) p = true.
Proof.
  induction p as [|a p IH]; simpl.
  - reflexivity.
  - rewrite Ascii.eqb_refl, IH; reflexivity.
Qed.

Lemma includes_cons (c : ascii) (r sub : string) :
  Js.includes (String c r) sub =
  Js.startsWith (String c r) sub || Js.includes r sub.
Proof. reflexivity. Qed.

Lemma includes_app_l (s t sub : string) :
  Js.includes s sub = true -> Js.includes (s ++ t) sub = true.
Proof.
  induction s as [|c s IH]; intros H.
  - destruct sub; [|discriminate]. destruct t; reflexivity.
  - change (String c s ++ t) with (String c (s ++ t)).
    rewrite includes_cons in *.
    apply orb_true_iff in H as [H|H].
    + change (String c (s ++ t)) with (String c s ++ t).
      rewrite (startsWith_app _ t _ H); reflexivity.
    + rewrite (IH H); apply orb_true_r.
Qed.

Lemma includes_app_r (s t sub : string) :
  Js.includes t sub = true -> Js.includes (s ++ t) sub = true.
Proof.
  intros H; induction s as [|c s IH].
  - exact H.
  - change (String c s ++ t) with (String c (s ++ t)).
    rewrite includes_cons, IH; apply orb_true_r.
Qed.

(** Searching for one code unit. *)
Lemma includes_unit_cons (c a : ascii) (r : string) :
  Js.includes (String c r) (String a EmptyString) =
  Ascii.eqb c a || Js.includes r (String a EmptyString).
Proof. simpl. rewrite andb_true_r. reflexivity. Qed.

Lemma includes_unit_app (s t : string) (a : ascii) :
  Js.includes (s ++ t) (String a EmptyString) =
  Js.includes s (String a EmptyString) || Js.includes t (String a EmptyString).
Proof.
  induction s as [|c s IH].
  - simpl. destruct t; reflexivity.
  - change (String c s ++ t) with (String c (s ++ t)).
    rewrite !includes_unit_cons, IH, orb_assoc. reflexivity.
Qed.

Lemma split_cons (s : string) (sep : ascii) :
  exists seg segs, Js.split s sep = seg :: segs.
Proof.
  induction s as [|c s (seg & segs & IH)]; simpl.
  - eauto.
  - destruct (Ascii.eqb c sep); [eauto|]. rewrite IH. eauto.
Qed.

(** The first separator ends the first segment. *)
Lemma split_at_first (core rest : string) (sep : ascii) :
  Js.includes core (String sep EmptyString) = false ->
  Js.split (core ++ String sep rest) sep = core :: Js.split rest sep.
Proof.
  induction core as [|c core IH]; intros H.
  - simpl. rewrite Ascii.eqb_refl. reflexivity.
  - rewrite includes_unit_cons in H. apply orb_false_iff in H as [Hc Hcore].
    simpl. rewrite Hc, (IH Hcore). reflexivity.
Qed.

(** A string with a separator splits into at least two segments: the
    element at index 1 exists. *)
Lemma index_split_defined (s : string) (sep : ascii) :
  Js.includes s (String sep EmptyString) = true ->
  Js.index (Js.split s sep) 1 = Some (Js.indexStr (Js.split s sep) 1).
Proof.
  induction s as [|c s IH]; intros H.
  - discriminate.
  - rewrite includes_unit_cons in H. simpl.
    destruct (Ascii.eqb c sep) eqn:Hc.
    + destruct (split_cons s sep) as (seg & segs & ->). reflexivity.
    + simpl in H. specialize (IH H).
      destruct (split_cons s sep) as (seg & segs & E). rewrite E in *.
      exact IH.
Qed.

(** The first segment starts like the whole string, for prefixes free of
    the separator. *)
Lemma startsWith_first_segment (s p : string) (sep : ascii) :
  Js.includes p (String sep EmptyString) = false ->
  Js.startsWith (Js.indexStr (Js.split s sep) 0) p = Js.startsWith s p.
Proof.
  revert p; induction s as [|c s IH]; intros p Hp.
  - reflexivity.
  - destruct p as [|a p]; [reflexivity|].
    rewrite includes_unit_cons in Hp. apply orb_false_iff in Hp as [Ha Hp].
    simpl. destruct (Ascii.eqb c sep) eqn:Hc.
    + apply Ascii.eqb_eq in Hc; subst c. simpl.
      rewrite Ascii.eqb_sym, Ha. reflexivity.
    + specialize (IH p Hp).
      destruct (split_cons s sep) as (seg & segs & E). rewrite E in *.
      unfold Js.indexStr in *. cbn [nth] in *.
      cbn [Js.startsWith]. rewrite IH. reflexivity.
Qed.

Lemma index_split_first_defined (s : string) (sep : ascii) :
  Js.index (Js.split s sep) 0 = Some (Js.indexStr (Js.split s sep) 0).
Proof. destruct (split_cons s sep) as (seg & segs & ->). reflexivity. Qed.

Lemma lt_nan_l (b : option Z) : Js.lt None b = false.
Proof. reflexivity. Qed.

End JsFacts.

(* ===================================================================== *)
(** ** Facts about the file tree *)
(* ===================================================================== *)

Module FsFacts.

Import Fs.

Lemma lookup_assign_same (name : string) (v : Node) (es : Entries) :
  lookup name (assign name v es) = Some v.
Proof.
  induction es as [|[n x] es IH]; simpl.
  - rewrite String.eqb_refl. reflexivity.
  - destruct (String.eqb name n) eqn:E; simpl; rewrite E; [reflexivity|exact IH].
Qed.

Lemma lookup_assign_other (name n : string) (v : Node) (es : Entries) :
  name <> n -> lookup name (assign n v es) = lookup name es.
Proof.
  intros Hne. apply String.eqb_neq in Hne.
  induction es as [|[m x] es IH]; simpl.
  - rewrite Hne. reflexivity.
  - destruct (String.eqb n m) eqn:E; simpl.
    + apply String.eqb_eq in E; subst m. rewrite Hne. reflexivity.
    + rewrite IH. reflexivity.
Qed.

Lemma lookup_unbind_same (name : string) (es : Entries) :
  lookup name (unbind name es) = None.
Proof.
  induction es as [|[n x] es IH]; simpl; [reflexivity|].
  destruct (String.eqb name n) eqn:E; simpl; [exact IH|].
  rewrite E. exact IH.
Qed.

Lemma lookup_unbind_other (name n : string) (es : Entries) :
  name <> n -> lookup name (unbind n es) = lookup name es.
Proof.
  intros Hne. apply String.eqb_neq in Hne.
  induction es as [|[m x] es IH]; simpl; [reflexivity|].
  destruct (String.eqb n m) eqn:E; simpl.
  - apply String.eqb_eq in E; subst m. rewrite Hne. exact IH.
  - rewrite IH. reflexivity.
Qed.

Lemma assign_assign (n : string) (u v : Node) (es : Entries) :
  assign n v (assign n u es) = assign n v es.
Proof.
  induction es as [|[m x] es IH]; simpl.
  - rewrite String.eqb_refl. reflexivity.
  - destruct (String.eqb n m) eqn:E; simpl; rewrite E; [reflexivity|].
    rewrite IH. reflexivity.
Qed.

Lemma assign_bound (n : string) (v : Node) (es : Entries) :
  lookup n es = Some v -> assign n v es = es.
Proof.
  induction es as [|[m x] es IH]; simpl; [discriminate|].
  destruct (String.eqb n m) eqn:E.
  - intros [= ->]. reflexivity.
  - intros H. rewrite (IH H). reflexivity.
Qed.

Lemma assign_unbound (n : string) (v : Node) (es : Entries) :
  lookup n es = None -> assign n v es = (es ++ [(n, v)])%list.
Proof.
  induction es as [|[m x] es IH]; simpl; [reflexivity|].
  destruct (String.eqb n m); [discriminate|].
  intros H. rewrite (IH H). reflexivity.
Qed.

Lemma lookup_not_in (name : string) (es : Entries) :
  ~ In name (map fst es) -> lookup name es = None.
Proof.
  induction es as [|[n x] es IH]; simpl; intros H; [reflexivity|].
  destruct (String.eqb_spec name n) as [->|_].
  - exfalso. apply H. left; reflexivity.
  - apply IH. intros Hin. apply H. right; exact Hin.
Qed.

(** In a directory without repeated names every entry is the one its name
    leads to. *)
Lemma lookup_in_nodup (name : string) (v : Node) (es : Entries) :
  NoDup (map fst es) -> In (name, v) es -> lookup name es = Some v.
Proof.
  induction es as [|[n x] es IH]; simpl; intros Hnd Hin; [contradiction|].
  inversion Hnd as [|? ? Hn Hnd']; subst.
  destruct Hin as [[= -> ->]|Hin].
  - rewrite String.eqb_refl. reflexivity.
  - destruct (String.eqb_spec name n) as [->|_]; [|exact (IH Hnd' Hin)].
    exfalso. apply Hn. apply (in_map fst) in Hin. exact Hin.
Qed.

Lemma copyTree_unfold (filter : string -> bool) (src : string) (n : Node) :
  copyTree filter src n =
  if filter src then
    Some match n with
         | File data => File data
         | Dir es => Dir (copyEntries filter src es)
         end
  else None.
Proof.
  destruct n as [data|es]; simpl; destruct (filter src); try reflexivity.
  do 2 f_equal. induction es as [|[name child] es IH]; simpl; [reflexivity|].
  rewrite IH. reflexivity.
Qed.

(** Copying keeps what is seen of a node. *)
Lemma kind_copyTree (filter : string -> bool) (src : string) (n : Node) :
  option_map kind (copyTree filter src n) =
  if filter src then Some (kind n) else None.
Proof.
  rewrite copyTree_unfold. destruct (filter src); [|reflexivity].
  destruct n; reflexivity.
Qed.

Lemma render_app (cwd : string) (p q : Path) :
  render cwd (p ++ q)%list = fold_left pathJoin q (render cwd p).
Proof. unfold render. apply fold_left_app. Qed.

Section PrefixClosedFilter.

(** A filter that rejects every path below a path it rejects. *)
Variable filter : string -> bool.
Hypothesis filter_closed :
  forall dir name, filter dir = false -> filter (pathJoin dir name) = false.

Lemma filter_closed_below (src : string) (p : Path) :
  filter src = false -> filter (fold_left pathJoin p src) = false.
Proof.
  revert src; induction p as [|name p IH]; intros src H; simpl; [exact H|].
  apply IH, filter_closed, H.
Qed.

Lemma lookup_copyEntries (src name : string) (es : Entries) :
  lookup name (copyEntries filter src es) =
  match lookup name es with
  | Some child => copyTree filter (pathJoin src name) child
  | None => None
  end.
Proof.
  induction es as [|[n child] es IH]; simpl; [reflexivity|].
  destruct (String.eqb_spec name n) as [->|Hne].
  - destruct (copyTree filter (pathJoin src n) child) as [c|] eqn:E; simpl.
    + rewrite String.eqb_refl. reflexivity.
    + rewrite IH.
      destruct (lookup n es) as [other|]; [|reflexivity].
      rewrite copyTree_unfold in *.
      destruct (filter (pathJoin src n)); [discriminate|reflexivity].
  - destruct (copyTree filter (pathJoin src n) child) as [c|]; simpl.
    + apply String.eqb_neq in Hne. rewrite Hne. exact IH.
    + exact IH.
Qed.

(** Walking in the copy is copying what the walk reaches in the source,
    under the path of that node. *)
Lemma walk_copyTree (p : Path) (src : string) (n : Node) :
  match copyTree filter src n with
  | Some c => walk c p
  | None => None
  end =
  match walk n p with
  | Some m => copyTree filter (fold_left pathJoin p src) m
  | None => None
  end.
Proof.
  revert src n; induction p as [|name p IH]; intros src n.
  - simpl. destruct (copyTree filter src n); reflexivity.
  - rewrite copyTree_unfold. destruct (filter src) eqn:Hf.
    + destruct n as [data|es]; [reflexivity|].
      cbn [walk fold_left]. rewrite lookup_copyEntries.
      destruct (lookup name es) as [child|]; [|reflexivity].
      apply IH.
    + destruct (walk n (name :: p)) as [m|]; [|reflexivity].
      rewrite copyTree_unfold, (filter_closed_below _ _ Hf). reflexivity.
Qed.

End PrefixClosedFilter.

End FsFacts.

(* ===================================================================== *)
(** ** Distribution tag resolution *)
(* ===================================================================== *)

(** The label tested by [determineDistTag] is the start of what follows the
    first ['-']: the test on [version.split('-')[1]] agrees with the test on
    the whole remainder of the version. *)
Lemma isNextPrerelease_first_label (core label : string) :
  Js.includes core "-" = false ->
  isNextPrerelease (core ++ "-" ++ label) =
  Js.startsWith label "beta" || Js.startsWith label "rc" ||
  Js.startsWith label "alpha".
Proof.
  intros Hcore. unfold isNextPrerelease.
  change (core ++ "-" ++ label) with (core ++ String "-"%char label).
  rewrite JsFacts.includes_unit_app, JsFacts.includes_unit_cons.
  rewrite Ascii.eqb_refl, orb_true_r.
  rewrite (JsFacts.split_at_first _ _ _ Hcore).
  change (Js.indexStr (core :: Js.split label "-") 1)
    with (Js.indexStr (Js.split label "-") 0).
  rewrite !JsFacts.startsWith_first_segment by reflexivity.
  reflexivity.
Qed.

Lemma isNextPrerelease_no_separator (version : string) :
  Js.includes version "-" = false -> isNextPrerelease version = false.
Proof. intros H. unfold isNextPrerelease. rewrite H. reflexivity. Qed.

Section DistTag.

Variable shell : string -> World -> ExecResult.

(** What [determineDistTag] does when the version is not a prerelease of
    the [next] channel: one registry query, then a tag chosen from its
    answer. *)
Lemma determineDistTag_after_query (version : string) (w : World) :
  isNextPrerelease version = false ->
  determineDistTag shell version w =
  (Returned
     match exec_stdout (shell npmViewCmd w) with
     | Some out =>
         if Js.truthy (Js.trim out) && isOlderMajor version (Js.trim out)
         then "previous" else "latest"
     | None => "latest"
     end,
   afterExec shell npmViewCmd StdioPipe w).
Proof.
  intros Hpre. unfold determineDistTag, bind, tryCatch, execSync.
  rewrite Hpre.
  destruct (exec_stdout (shell npmViewCmd w)) as [out|]; [|reflexivity].
  destruct (Js.truthy (Js.trim out)); [|reflexivity].
  destruct (isOlderMajor version (Js.trim out)); reflexivity.
Qed.

(** C1.  A version with a ['-'] whose label, what follows the first ['-'],
    begins with [beta], [rc] or [alpha] resolves to [next]; this holds for
    every registry, and the state of the process is left as it was: no
    command is run, so the registry is not asked. *)
Theorem determineDistTag_prerelease_next (core label : string) (w : World) :
  Js.includes core "-" = false ->
  Js.startsWith label "beta" || Js.startsWith label "rc" ||
  Js.startsWith label "alpha" = true ->
  Js.includes (core ++ "-" ++ label) "-" = true /\
  determineDistTag shell (core ++ "-" ++ label) w = (Returned "next", w).
Proof.
  intros Hcore Hlabel. split.
  - change (core ++ "-" ++ label) with (core ++ String "-"%char label).
    rewrite JsFacts.includes_unit_app, JsFacts.includes_unit_cons.
    rewrite Ascii.eqb_refl. apply orb_true_r.
  - unfold determineDistTag.
    rewrite (isNextPrerelease_first_label _ _ Hcore), Hlabel. reflexivity.
Qed.

(** C2.  Without a qualifying prerelease label, when the registry answers a
    non-empty version and the major number of the candidate is below the
    published one, the tag is [previous]. *)
Theorem determineDistTag_older_major_previous
  (version out : string) (a b : Z) (w : World) :
  isNextPrerelease version = false ->
  exec_stdout (shell npmViewCmd w) = Some out ->
  Js.trim out <> EmptyString ->
  Js.parseInt (Js.indexStr (Js.split version ".") 0) = Some a ->
  Js.parseInt (Js.indexStr (Js.split (Js.trim out) ".") 0) = Some b ->
  (a < b)%Z ->
  fst (determineDistTag shell version w) = Returned "previous".
Proof.
  intros Hpre Hout Hne Ha Hb Hlt.
  rewrite (determineDistTag_after_query _ _ Hpre), Hout. cbn [fst].
  unfold isOlderMajor. rewrite Ha, Hb. cbn [Js.lt].
  apply Z.ltb_lt in Hlt. rewrite Hlt.
  destruct (Js.trim out); [contradiction|reflexivity].
Qed.

(** C3.  Without a qualifying prerelease label, when the registry query
    fails, or when it answers and the major number of the candidate is at
    least the published one, the function returns [latest]: the failure of
    the query is caught and nothing is thrown. *)
Theorem determineDistTag_latest (version : string) (w : World) :
  isNextPrerelease version = false ->
  (exec_stdout (shell npmViewCmd w) = None \/
   exists (out : string) (a b : Z),
     exec_stdout (shell npmViewCmd w) = Some out /\
     Js.parseInt (Js.indexStr (Js.split version ".") 0) = Some a /\
     Js.parseInt (Js.indexStr (Js.split (Js.trim out) ".") 0) = Some b /\
     (a >= b)%Z) ->
  fst (determineDistTag shell version w) = Returned "latest".
Proof.
  intros Hpre H.
  rewrite (determineDistTag_after_query _ _ Hpre). cbn [fst].
  destruct H as [-> | (out & a & b & -> & Ha & Hb & Hge)]; [reflexivity|].
  unfold isOlderMajor. rewrite Ha, Hb. cbn [Js.lt].
  assert ((a <? b)%Z = false) as -> by (apply Z.ltb_ge; lia).
  rewrite andb_false_r. reflexivity.
Qed.

(** C10.  A version without ['-'] whose first dot-separated segment does not
    parse to a number resolves to [latest] whatever the registry answers:
    the comparison with the published major number is false. *)
Theorem determineDistTag_non_numeric_latest (version : string) (w : World) :
  Js.includes version "-" = false ->
  Js.parseInt (Js.indexStr (Js.split version ".") 0) = None ->
  (forall latestVersion, isOlderMajor version latestVersion = false) /\
  fst (determineDistTag shell version w) = Returned "latest".
Proof.
  intros Hsep Hnan.
  assert (forall latestVersion, isOlderMajor version latestVersion = false)
    as Hcmp by (intros l; unfold isOlderMajor; rewrite Hnan; reflexivity).
  split; [exact Hcmp|].
  rewrite (determineDistTag_after_query _ _ (isNextPrerelease_no_separator _ Hsep)).
  cbn [fst]. destruct (exec_stdout (shell npmViewCmd w)); [|reflexivity].
  rewrite Hcmp, andb_false_r. reflexivity.
Qed.

End DistTag.


Lemma determineDistTag_prerelease_next_witness :
  Js.includes "2.0.0" "-" = false /\
  Js.startsWith "beta.1" "beta" || Js.startsWith "beta.1" "rc" ||
  Js.startsWith "beta.1" "alpha" = true /\
  determineDistTag (sampleShell (Some "1.4.0")) "2.0.0-beta.1"
    (sampleWorld (Some "true") ["2.0.0-beta.1"]) =
  (Returned "next", sampleWorld (Some "true") ["2.0.0-beta.1"]).
Proof.
  split; [reflexivity|]. split; [reflexivity|].
  apply (determineDistTag_prerelease_next
           (sampleShell (Some "1.4.0")) "2.0.0" "beta.1"); reflexivity.
Defined.

Lemma determineDistTag_older_major_previous_witness :
  fst (determineDistTag (sampleShell (Some (String "010"%char "2.0.0"))) "1.5.0"
         (sampleWorld (Some "true") ["1.5.0"])) = Returned "previous".
Proof.
  apply (determineDistTag_older_major_previous
           (sampleShell (Some (String "010"%char "2.0.0"))) "1.5.0"
           (String "010"%char "2.0.0") 1 2);
    [reflexivity | reflexivity | discriminate | reflexivity | reflexivity | lia].
Defined.

Lemma determineDistTag_latest_witness :
  fst (determineDistTag (sampleShell None) "1.2.0"
         (sampleWorld (Some "true") ["1.2.0"])) = Returned "latest".
Proof.
  apply (determineDistTag_latest (sampleShell None) "1.2.0");
    [reflexivity | left; reflexivity].
Defined.

Lemma determineDistTag_non_numeric_latest_witness :
  fst (determineDistTag (sampleShell (Some "2.0.0")) "minor"
         (sampleWorld (Some "true") [])) = Returned "latest".
Proof.
  apply (determineDistTag_non_numeric_latest (sampleShell (Some "2.0.0")) "minor");
    reflexivity.
Defined.

(* ===================================================================== *)
(** ** Argument parsing *)
(* ===================================================================== *)

Module ParseArgsFacts.

Lemma startsWith_shorter (s p q : string) :
  Js.startsWith s (p ++ q) = true -> Js.startsWith s p = true.
Proof.
  revert s; induction p as [|a p IH]; intros s H.
  - reflexivity.
  - destruct s as [|b s]; simpl in *; [discriminate|].
    apply andb_true_iff in H as [Hb Hs]. rewrite Hb, (IH _ Hs). reflexivity.
Qed.

Lemma split_without_separator (s : string) (sep : ascii) :
  Js.includes s (String sep EmptyString) = false -> Js.split s sep = [s].
Proof.
  induction s as [|c s IH]; intros H; [reflexivity|].
  rewrite JsFacts.includes_unit_cons in H.
  apply orb_false_iff in H as [Hc Hs].
  simpl. rewrite Hc, (IH Hs). reflexivity.
Qed.

Lemma startsWith_includes_unit (s p q : string) (c : ascii) :
  Js.startsWith s (p ++ String c q) = true ->
  Js.includes s (String c EmptyString) = true.
Proof.
  revert s; induction p as [|x p IH]; intros s H;
    destruct s as [|b s]; simpl in H; try discriminate;
    apply andb_true_iff in H as [Hb Hs];
    rewrite JsFacts.includes_unit_cons.
  - rewrite Hb. reflexivity.
  - rewrite (IH _ Hs). apply orb_true_r.
Qed.

(** The four tests of the loop body exclude each other. *)
Lemma flag_not_positional (a : string) :
  Js.startsWith a "--" = false ->
  String.eqb a "--dry-run" = false /\
  Js.startsWith a "--from=" = false /\
  Js.startsWith a "--git-remote=" = false.
Proof.
  intros H. repeat split.
  - destruct (String.eqb_spec a "--dry-run") as [->|]; [discriminate|reflexivity].
  - destruct (Js.startsWith a "--from=") eqn:E; [|reflexivity].
    rewrite (startsWith_shorter a "--" "from=" E) in H. discriminate.
  - destruct (Js.startsWith a "--git-remote=") eqn:E; [|reflexivity].
    rewrite (startsWith_shorter a "--" "git-remote=" E) in H. discriminate.
Qed.

Lemma parseArg_dryRun (o : Options) (a : string) :
  dryRun (parseArg o a) = dryRun o || String.eqb a "--dry-run".
Proof.
  unfold parseArg. destruct (String.eqb a "--dry-run").
  - cbn. rewrite orb_true_r. reflexivity.
  - rewrite orb_false_r.
    destruct (Js.startsWith a "--from="); [reflexivity|].
    destruct (Js.startsWith a "--git-remote="); [reflexivity|].
    destruct (Js.startsWith a "--"); reflexivity.
Qed.

Lemma parseArg_version_flag (o : Options) (a : string) :
  Js.startsWith a "--" = true -> version (parseArg o a) = version o.
Proof.
  intros H. unfold parseArg. rewrite H.
  destruct (String.eqb a "--dry-run"); [reflexivity|].
  destruct (Js.startsWith a "--from="); [reflexivity|].
  destruct (Js.startsWith a "--git-remote="); reflexivity.
Qed.

Lemma parseArg_version_positional (o : Options) (a : string) :
  Js.startsWith a "--" = false -> version (parseArg o a) = a.
Proof.
  intros H. destruct (flag_not_positional a H) as (H1 & H2 & H3).
  unfold parseArg. rewrite H, H1, H2, H3. reflexivity.
Qed.

Lemma parseArg_gitRemote_other (o : Options) (a : string) :
  Js.startsWith a "--git-remote=" = false ->
  gitRemote (parseArg o a) = gitRemote o.
Proof.
  intros H. unfold parseArg. rewrite H.
  destruct (String.eqb a "--dry-run"); [reflexivity|].
  destruct (Js.startsWith a "--from="); [reflexivity|].
  destruct (negb (Js.startsWith a "--")); reflexivity.
Qed.

Lemma parseArg_gitRemote_set (o : Options) (name : string) :
  gitRemote (parseArg o ("--git-remote=" ++ name)) =
  Js.indexStr (Js.split name "="%char) 0.
Proof.
  unfold parseArg.
  change ("--git-remote=" ++ name) with ("--git-remote" ++ String "="%char name).
  rewrite (JsFacts.split_at_first "--git-remote" name "="%char eq_refl).
  cbn. reflexivity.
Qed.

Lemma parseArg_from_other (o : Options) (a : string) :
  Js.startsWith a "--from=" = false -> from (parseArg o a) = from o.
Proof.
  intros H. unfold parseArg. rewrite H.
  destruct (String.eqb a "--dry-run"); [reflexivity|].
  destruct (Js.startsWith a "--git-remote="); [reflexivity|].
  destruct (negb (Js.startsWith a "--")); reflexivity.
Qed.

Lemma parseArg_from_set (o : Options) (ref : string) :
  from (parseArg o ("--from=" ++ ref)) =
  Some (Js.indexStr (Js.split ref "="%char) 0).
Proof.
  unfold parseArg.
  change ("--from=" ++ ref) with ("--from" ++ String "="%char ref).
  rewrite (JsFacts.split_at_first "--from" ref "="%char eq_refl).
  destruct (JsFacts.split_cons ref "="%char) as (seg & segs & ->).
  cbn. reflexivity.
Qed.

(** The element the [--git-remote=] branch reads exists. *)
Lemma parseArg_gitRemote_defined (a : string) :
  Js.startsWith a "--git-remote=" = true ->
  Js.index (Js.split a "="%char) 1 = Some (Js.indexStr (Js.split a "="%char) 1).
Proof.
  intros H. apply JsFacts.index_split_defined.
  exact (startsWith_includes_unit a "--git-remote" EmptyString "="%char H).
Qed.

(** An argument [--from=...] always gives [from] a value. *)
Lemma parseArg_from_given (o : Options) (a : string) :
  Js.startsWith a "--from=" = true -> from (parseArg o a) <> None.
Proof.
  intros H. unfold parseArg. rewrite H.
  destruct (String.eqb_spec a "--dry-run") as [->|_]; [discriminate|].
  cbn [from].
  assert (Js.includes a "=" = true) as Hsep
    by exact (startsWith_includes_unit a "--from" EmptyString "="%char H).
  rewrite (JsFacts.index_split_defined _ _ Hsep). discriminate.
Qed.

Section Loop.

Variable args : list string.

Lemma loop_dryRun (o : Options) :
  dryRun (fold_left parseArg args o) =
  dryRun o || existsb (String.eqb "--dry-run") args.
Proof.
  revert o; induction args as [|a l IH]; intros o; cbn [fold_left existsb].
  - rewrite orb_false_r. reflexivity.
  - rewrite IH, parseArg_dryRun, (String.eqb_sym "--dry-run" a), orb_assoc.
    reflexivity.
Qed.

Lemma loop_version_kept (o : Options) :
  (forall a, In a args -> Js.startsWith a "--" = true) ->
  version (fold_left parseArg args o) = version o.
Proof.
  revert o; induction args as [|a l IH]; intros o H; simpl; [reflexivity|].
  rewrite IH by (intros; apply H; right; assumption).
  apply parseArg_version_flag, H. left; reflexivity.
Qed.

Lemma loop_gitRemote_kept (o : Options) :
  (forall a, In a args -> Js.startsWith a "--git-remote=" = false) ->
  gitRemote (fold_left parseArg args o) = gitRemote o.
Proof.
  revert o; induction args as [|a l IH]; intros o H; simpl; [reflexivity|].
  rewrite IH by (intros; apply H; right; assumption).
  apply parseArg_gitRemote_other, H. left; reflexivity.
Qed.

Lemma loop_from_kept (o : Options) :
  (forall a, In a args -> Js.startsWith a "--from=" = false) ->
  from (fold_left parseArg args o) = from o.
Proof.
  revert o; induction args as [|a l IH]; intros o H; simpl; [reflexivity|].
  rewrite IH by (intros; apply H; right; assumption).
  apply parseArg_from_other, H. left; reflexivity.
Qed.

Lemma loop_from_given (o : Options) :
  from o <> None \/ (exists a, In a args /\ Js.startsWith a "--from=" = true) ->
  from (fold_left parseArg args o) <> None.
Proof.
  revert o; induction args as [|a l IH]; intros o H; simpl.
  - destruct H as [H|(a & [] & _)]; exact H.
  - apply IH. destruct (Js.startsWith a "--from=") eqn:E.
    + left. apply parseArg_from_given, E.
    + destruct H as [H|(b & [<-|Hb] & Hs)].
      * left. rewrite (parseArg_from_other _ _ E). exact H.
      * rewrite E in Hs; discriminate.
      * right. exists b. split; assumption.
Qed.

End Loop.

End ParseArgsFacts.

(** C8.  The options parsed from the arguments [args] after the two leading
    entries of the argument vector:
    - [version] is [minor] when no argument is positional, and otherwise
      the last positional argument;
    - [dryRun] is true exactly when [--dry-run] is among the arguments;
    - [gitRemote] is [origin] when no [--git-remote=] argument is given, and
      otherwise what the last one gives: the text after the flag up to the
      next ['='], which is the whole name when the name has no ['='];
    - [from] is absent exactly when no [--from=] argument is given, and
      otherwise what the last one gives, read in the same way. *)
Theorem parseArgs_options (processArgv : list string) :
  let args := skipn 2 processArgv in
  let options := parseArgs processArgv in
  ((forall a, In a args -> Js.startsWith a "--" = true) ->
   version options = "minor") /\
  (forall before v after,
     args = (before ++ v :: after)%list ->
     Js.startsWith v "--" = false ->
     (forall a, In a after -> Js.startsWith a "--" = true) ->
     version options = v) /\
  (dryRun options = true <-> In "--dry-run" args) /\
  ((forall a, In a args -> Js.startsWith a "--git-remote=" = false) ->
   gitRemote options = "origin") /\
  (forall before name after,
     args = (before ++ ("--git-remote=" ++ name)%string :: after)%list ->
     (forall a, In a after -> Js.startsWith a "--git-remote=" = false) ->
     gitRemote options = Js.indexStr (Js.split name "=") 0 /\
     (Js.includes name "=" = false -> gitRemote options = name)) /\
  (from options = None <->
   forall a, In a args -> Js.startsWith a "--from=" = false) /\
  (forall before ref after,
     args = (before ++ ("--from=" ++ ref)%string :: after)%list ->
     (forall a, In a after -> Js.startsWith a "--from=" = false) ->
     from options = Some (Js.indexStr (Js.split ref "=") 0) /\
     (Js.includes ref "=" = false -> from options = Some ref)).
Proof.
  intros args options. unfold options, parseArgs. fold args.
  split; [|split; [|split; [|split; [|split; [|split]]]]].
  - intros H. rewrite ParseArgsFacts.loop_version_kept by exact H. reflexivity.
  - intros before v after E Hv Hafter.
    rewrite E, fold_left_app. cbn [fold_left].
    rewrite ParseArgsFacts.loop_version_kept by exact Hafter.
    apply ParseArgsFacts.parseArg_version_positional, Hv.
  - rewrite ParseArgsFacts.loop_dryRun. cbn [dryRun defaultOptions orb].
    rewrite existsb_exists. split.
    + intros (a & Ha & E). apply String.eqb_eq in E. subst a. exact Ha.
    + intros H. exists "--dry-run". split; [exact H|reflexivity].
  - intros H. rewrite ParseArgsFacts.loop_gitRemote_kept by exact H. reflexivity.
  - intros before name after E Hafter.
    assert (gitRemote (fold_left parseArg args defaultOptions) =
            Js.indexStr (Js.split name "=") 0) as Hset.
    { rewrite E, fold_left_app. cbn [fold_left].
      rewrite ParseArgsFacts.loop_gitRemote_kept by exact Hafter.
      apply ParseArgsFacts.parseArg_gitRemote_set. }
    split; [exact Hset|]. intros Hname.
    rewrite Hset, (ParseArgsFacts.split_without_separator _ _ Hname). reflexivity.
  - split.
    + intros Hnone a Ha.
      destruct (Js.startsWith a "--from=") eqn:E; [|reflexivity].
      exfalso.
      apply (ParseArgsFacts.loop_from_given args defaultOptions); [|exact Hnone].
      right. exists a. split; assumption.
    + intros H. rewrite ParseArgsFacts.loop_from_kept by exact H. reflexivity.
  - intros before ref after E Hafter.
    assert (from (fold_left parseArg args defaultOptions) =
            Some (Js.indexStr (Js.split ref "=") 0)) as Hset.
    { rewrite E, fold_left_app. cbn [fold_left].
      rewrite ParseArgsFacts.loop_from_kept by exact Hafter.
      apply ParseArgsFacts.parseArg_from_set. }
    split; [exact Hset|]. intros Href.
    rewrite Hset, (ParseArgsFacts.split_without_separator _ _ Href). reflexivity.
Qed.

Lemma parseArgs_options_witness :
  parseArgs ["node"; "scripts/release.ts"; "--dry-run"] =
  mkOptions "minor" true None "origin" /\
  version (parseArgs ["node"; "scripts/release.ts"; "--dry-run"]) = "minor" /\
  gitRemote (parseArgs ["node"; "scripts/release.ts"; "1.2.0";
                        "--git-remote=upstream"; "--from=v1.1.0"]) = "upstream".
Proof.
  split; [reflexivity|]. split.
  - apply (parseArgs_options ["node"; "scripts/release.ts"; "--dry-run"]).
    intros a [<-|[]]. reflexivity.
  - destruct (parseArgs_options ["node"; "scripts/release.ts"; "1.2.0";
                                 "--git-remote=upstream"; "--from=v1.1.0"])
      as (_ & _ & _ & _ & H & _).
    apply (H ["1.2.0"] "upstream" ["--from=v1.1.0"]).
    + reflexivity.
    + intros a [<-|[]]. reflexivity.
    + reflexivity.
Defined.

(* ===================================================================== *)
(** ** Staging: the copy into the build directory *)
(* ===================================================================== *)

Module StagingFacts.

Lemma pathJoin_extends (dir name : string) :
  exists tail, Fs.pathJoin dir name = dir ++ tail.
Proof.
  unfold Fs.pathJoin. destruct (Fs.endsWithSlash dir); eauto.
Qed.

Local Open Scope list_scope.

(** The filter of the script rejects everything below a path it rejects. *)
Lemma copyFilter_closed (dir name : string) :
  copyFilter dir = false -> copyFilter (Fs.pathJoin dir name) = false.
Proof.
  unfold copyFilter. intros H.
  destruct (pathJoin_extends dir name) as (tail & ->).
  apply andb_false_iff in H as [H|H]; apply negb_false_iff in H;
    rewrite (JsFacts.includes_app_l _ tail _ H); [reflexivity|].
  apply andb_false_r.
Qed.

Lemma world_eta (w : World) :
  mkWorld (argv w) (env_CI w) (cwd w) (files w) (trace w) = w.
Proof. destruct w; reflexivity. Qed.

Lemma fsStat_run (p : Fs.Path) (n : Fs.Node) (w : World) :
  Fs.walk (Fs.Dir (files w)) p = Some n ->
  fsStat p w = (Returned n, emit (FsStat (Fs.render (cwd w) p)) w).
Proof. intros H. unfold fsStat. cbn [files emit]. rewrite H. reflexivity. Qed.

Lemma fsCopy_skipped (src dest : Fs.Path) (n : Fs.Node) (w : World) :
  Fs.walk (Fs.Dir (files w)) src = Some n ->
  Fs.copyTree copyFilter (Fs.render (cwd w) src) n = None ->
  fsCopy src dest copyFilter w =
  (Returned tt,
   emit (FsCopy (Fs.render (cwd w) src) (Fs.render (cwd w) dest)) w).
Proof.
  intros Hsrc Hcopy. unfold fsCopy. cbn [files emit].
  rewrite Hsrc, Hcopy. reflexivity.
Qed.

Lemma fsCopy_created
  (src dest : Fs.Path) (n img : Fs.Node) (es : Fs.Entries) (w : World) :
  Fs.walk (Fs.Dir (files w)) src = Some n ->
  Fs.copyTree copyFilter (Fs.render (cwd w) src) n = Some img ->
  Fs.walk (Fs.Dir (files w)) dest = None ->
  Fs.write dest img (Fs.Dir (files w)) = Some (Fs.Dir es) ->
  fsCopy src dest copyFilter w =
  (Returned tt,
   setFiles es
     (emit (FsCopy (Fs.render (cwd w) src) (Fs.render (cwd w) dest)) w)).
Proof.
  intros Hsrc Hcopy Hdest Hwrite. unfold fsCopy. cbn [files emit].
  rewrite Hsrc, Hcopy, Hdest.
  destruct img; cbn [Fs.overlay]; rewrite Hwrite; reflexivity.
Qed.

Section Loop.

Variable pkgs : Fs.Entries.

Lemma copyEach_run (l : Fs.Entries) :
  forall (w : World) (b : Fs.Entries),
    Fs.lookup "packages" (files w) = Some (Fs.Dir pkgs) ->
    Fs.lookup "build" (files w) = Some (Fs.Dir b) ->
    (forall name n, In (name, n) l -> Fs.lookup name pkgs = Some n) ->
    NoDup (map fst l) ->
    (forall name, In name (map fst l) -> Fs.lookup name b = None) ->
    exists b',
      copyEach (map fst l) w =
      (Returned tt,
       mkWorld (argv w) (env_CI w) (cwd w)
               (Fs.assign "build" (Fs.Dir b') (files w))
               (trace w ++ copyEachEvents (cwd w) l)) /\
      (forall name, ~ In name (map fst l) ->
                    Fs.lookup name b' = Fs.lookup name b) /\
      (forall name n, In (name, n) l ->
                      Fs.lookup name b' = stagedEntry (cwd w) name n).
Proof.
  induction l as [|[pkg n] l IH]; intros w b Hpk Hbuild Hin Hnd Hfresh.
  - exists b. repeat split.
    + cbn. unfold ret. rewrite (FsFacts.assign_bound _ _ _ Hbuild), app_nil_r.
      rewrite world_eta. reflexivity.
    + intros ? ? [].
  - cbn [map fst] in *. inversion Hnd as [|? ? Hpkg Hnd']; subst.
    assert (Hwalk : Fs.walk (Fs.Dir (files w)) (packagesDir ++ [pkg]) = Some n).
    { cbn. rewrite Hpk, (Hin pkg n (or_introl eq_refl)). reflexivity. }
    assert (Hin' : forall name m, In (name, m) l -> Fs.lookup name pkgs = Some m)
      by (intros; apply Hin; right; assumption).
    assert (Hfresh' : forall name, In name (map fst l) -> Fs.lookup name b = None)
      by (intros; apply Hfresh; right; assumption).
    cbn [copyEach]. unfold bind at 1. rewrite (fsStat_run _ _ _ Hwalk).
    set (w1 := emit _ w).
    assert (Hskip :
      forall w2 evs,
        files w2 = files w -> cwd w2 = cwd w -> argv w2 = argv w ->
        env_CI w2 = env_CI w ->
        trace w2 = (trace w ++ evs)%list ->
        (evs ++ copyEachEvents (cwd w) l)%list =
          copyEachEvents (cwd w) ((pkg, n) :: l) ->
        stagedEntry (cwd w) pkg n = None ->
        exists b',
          copyEach (map fst l) w2 =
          (Returned tt,
           mkWorld (argv w) (env_CI w) (cwd w)
                   (Fs.assign "build" (Fs.Dir b') (files w))
                   (trace w ++ copyEachEvents (cwd w) ((pkg, n) :: l))) /\
          (forall name, ~ In name (pkg :: map fst l) ->
                        Fs.lookup name b' = Fs.lookup name b) /\
          (forall name m, In (name, m) ((pkg, n) :: l) ->
                          Fs.lookup name b' = stagedEntry (cwd w) name m)).
    { intros w2 evs Hf Hc Ha He Ht Hevs Hst.
      destruct (IH w2 b) as (b' & Hrun & Hother & Hstaged);
        try assumption; try (rewrite Hf; assumption).
      exists b'. repeat split.
      - rewrite Hrun, Hf, Hc, Ha, He, Ht, <- app_assoc, Hevs. reflexivity.
      - intros name Hname. apply Hother. intros H. apply Hname. right; exact H.
      - intros name m [[= -> ->]|Hm].
        + rewrite Hst. rewrite (Hother _ Hpkg). apply Hfresh. left; reflexivity.
        + rewrite Hc in Hstaged. apply Hstaged, Hm. }
    destruct n as [data|es]; cbn [Fs.isDirectory negb].
    + apply (Hskip w1 [FsStat (Fs.render (cwd w) (packagesDir ++ [pkg]))]);
        reflexivity.
    + unfold bind at 1.
      assert (Hwalk1 : Fs.walk (Fs.Dir (files w1)) (packagesDir ++ [pkg])
                       = Some (Fs.Dir es)) by exact Hwalk.
      destruct (Fs.copyTree copyFilter
                  (Fs.render (cwd w1) (packagesDir ++ [pkg])) (Fs.Dir es))
        as [img|] eqn:Hcopy.
      * assert (Hdest : Fs.walk (Fs.Dir (files w1)) (buildDir ++ [pkg]) = None).
        { cbn. rewrite Hbuild, (Hfresh pkg (or_introl eq_refl)). reflexivity. }
        assert (Hwrite :
          Fs.write (buildDir ++ [pkg]) img (Fs.Dir (files w1)) =
          Some (Fs.Dir (Fs.assign "build" (Fs.Dir (Fs.assign pkg img b)) (files w)))).
        { cbn. rewrite Hbuild. reflexivity. }
        rewrite (fsCopy_created _ _ _ _ _ _ Hwalk1 Hcopy Hdest Hwrite).
        set (w2 := setFiles _ _).
        destruct (IH w2 (Fs.assign pkg img b)) as (b' & Hrun & Hother & Hstaged).
        { cbn. rewrite FsFacts.lookup_assign_other by discriminate. exact Hpk. }
        { cbn. apply FsFacts.lookup_assign_same. }
        { exact Hin'. }
        { exact Hnd'. }
        { intros name Hname. rewrite FsFacts.lookup_assign_other.
          - apply Hfresh'. exact Hname.
          - intros ->. contradiction. }
        exists b'. repeat split.
        -- rewrite Hrun. cbn. rewrite FsFacts.assign_assign, <- !app_assoc.
           reflexivity.
        -- intros name Hname. rewrite Hother.
           ++ apply FsFacts.lookup_assign_other. intros ->. apply Hname.
              left; reflexivity.
           ++ intros H. apply Hname. right; exact H.
        -- intros name m [[= <- <-]|Hm].
           ++ rewrite (Hother _ Hpkg), FsFacts.lookup_assign_same.
              symmetry. exact Hcopy.
           ++ apply (Hstaged name m Hm).
      * rewrite (fsCopy_skipped _ _ _ _ Hwalk1 Hcopy).
        apply (Hskip _ [FsStat (Fs.render (cwd w) (packagesDir ++ [pkg]));
                        FsCopy (Fs.render (cwd w) (packagesDir ++ [pkg]))
                               (Fs.render (cwd w) (buildDir ++ [pkg]))]);
          try reflexivity.
        -- cbn. rewrite <- app_assoc. reflexivity.
        -- exact Hcopy.
Qed.

End Loop.

(** A run of [copyPackagesToBuild] when the packages directory exists and
    lists every name once: it returns, the build directory is bound anew to
    a directory [staged], and [staged] holds, under the name of each
    directory of the packages directory, what [fs.copy] reads from it. *)
Lemma copyPackagesToBuild_run (w : World) (pkgs : Fs.Entries) :
  Fs.lookup "packages" (files w) = Some (Fs.Dir pkgs) ->
  NoDup (map fst pkgs) ->
  exists staged : Fs.Entries,
    copyPackagesToBuild w =
    (Returned tt,
     mkWorld (argv w) (env_CI w) (cwd w)
             (Fs.unbind "build" (files w) ++ [("build", Fs.Dir staged)])
             (trace w ++ copyPackagesEvents (cwd w) pkgs)) /\
    forall name,
      Fs.lookup name staged =
      match Fs.lookup name pkgs with
      | Some n => stagedEntry (cwd w) name n
      | None => None
      end.
Proof.
  intros Hpk Hnd.
  set (w1 := setFiles (Fs.unbind "build" (files w))
               (emit (FsRemove (Fs.render (cwd w) buildDir)) w)).
  set (w2 := setFiles (Fs.assign "build" (Fs.Dir []) (Fs.unbind "build" (files w)))
               (emit (FsEnsureDir (Fs.render (cwd w) buildDir)) w1)).
  set (w3 := emit (FsReaddir (Fs.render (cwd w) packagesDir)) w2).
  assert (Hbuild1 : Fs.lookup "build" (Fs.unbind "build" (files w)) = None)
    by apply FsFacts.lookup_unbind_same.
  assert (Hpk3 : Fs.lookup "packages" (files w3) = Some (Fs.Dir pkgs)).
  { cbn [files w3 w2 emit setFiles].
    rewrite FsFacts.lookup_assign_other, FsFacts.lookup_unbind_other
      by discriminate. exact Hpk. }
  assert (Hrun : copyPackagesToBuild w = copyEach (map fst pkgs) w3).
  { unfold copyPackagesToBuild, bind.
    change (fsRemove buildDir w) with (Returned tt, w1). cbn iota.
    assert (fsEnsureDir buildDir w1 = (Returned tt, w2)) as ->.
    { unfold fsEnsureDir.
      cbn [files emit Fs.walk buildDir w1 setFiles].
      rewrite Hbuild1. reflexivity. }
    assert (fsReaddir packagesDir w2 = (Returned (map fst pkgs), w3)) as ->.
    { unfold fsReaddir. cbn [files emit Fs.walk packagesDir].
      cbn [files w3 emit] in Hpk3. rewrite Hpk3. reflexivity. }
    reflexivity. }
  destruct (copyEach_run pkgs pkgs w3 []) as (staged & Hloop & Hother & Hstaged).
  - exact Hpk3.
  - cbn [files w3 w2 emit setFiles]. apply FsFacts.lookup_assign_same.
  - intros name n. apply FsFacts.lookup_in_nodup, Hnd.
  - exact Hnd.
  - reflexivity.
  - exists staged. split.
    + rewrite Hrun, Hloop. cbn [argv env_CI cwd files trace w3 w2 w1 emit setFiles].
      rewrite FsFacts.assign_assign, (FsFacts.assign_unbound _ _ _ Hbuild1).
      unfold copyPackagesEvents. rewrite <- !app_assoc. reflexivity.
    + intros name.
      destruct (in_dec string_dec name (map fst pkgs)) as [Hname|Hname].
      * apply in_map_iff in Hname as ([name' n] & Hfst & Hentry).
        cbn in Hfst. subst name'.
        rewrite (FsFacts.lookup_in_nodup _ _ _ Hnd Hentry).
        apply (Hstaged name n Hentry).
      * rewrite (FsFacts.lookup_not_in _ _ Hname). apply Hother, Hname.
Qed.

End StagingFacts.

(** C7.  When the packages directory exists (its entries have distinct
    names, as in every directory), [copyPackagesToBuild] returns and
    - it first removes the build directory, creates it again and lists the
      packages directory, then examines every entry and copies the
      directories, in this order;
    - the build directory is bound anew, to a directory [staged] that has
      no entry for a name that is not a directory of the packages
      directory;
    - below a package directory, a path is present in [staged] exactly when
      it is present in the source and its source path contains neither
      [node_modules] nor [__tests__]; what is there is then of the same
      kind, a directory or a file with the same bytes. *)
Theorem copyPackagesToBuild_filtered_copy (w : World) (pkgs : Fs.Entries) :
  Fs.lookup "packages" (files w) = Some (Fs.Dir pkgs) ->
  NoDup (map fst pkgs) ->
  exists staged : Fs.Entries,
    fst (copyPackagesToBuild w) = Returned tt /\
    trace (snd (copyPackagesToBuild w)) =
      (trace w ++
       FsRemove (Fs.render (cwd w) ["build"]) ::
       FsEnsureDir (Fs.render (cwd w) ["build"]) ::
       FsReaddir (Fs.render (cwd w) ["packages"]) ::
       copyEachEvents (cwd w) pkgs)%list /\
    files (snd (copyPackagesToBuild w)) =
      (Fs.unbind "build" (files w) ++ [("build", Fs.Dir staged)])%list /\
    (forall name,
       (forall es, Fs.lookup name pkgs <> Some (Fs.Dir es)) ->
       Fs.lookup name staged = None) /\
    (forall name es rest,
       Fs.lookup name pkgs = Some (Fs.Dir es) ->
       let src := Fs.render (cwd w) ("packages" :: name :: rest) in
       option_map Fs.kind (Fs.walk (Fs.Dir staged) (name :: rest)) =
       if Js.includes src "node_modules" || Js.includes src "__tests__"
       then None
       else option_map Fs.kind (Fs.walk (Fs.Dir pkgs) (name :: rest))).
Proof.
  intros Hpk Hnd.
  destruct (StagingFacts.copyPackagesToBuild_run w pkgs Hpk Hnd)
    as (staged & Hrun & Hstaged).
  exists staged. rewrite Hrun. cbn [fst snd trace files].
  repeat split.
  - intros name Hname. rewrite Hstaged.
    destruct (Fs.lookup name pkgs) as [[data|es]|]; try reflexivity.
    exfalso. apply (Hname es). reflexivity.
  - intros name es rest Hdir.
    set (src := Fs.render (cwd w) ("packages" :: name :: rest)).
    cbn [Fs.walk]. rewrite Hstaged, Hdir.
    unfold stagedEntry. cbn [Fs.isDirectory packagesDir app].
    rewrite (FsFacts.walk_copyTree copyFilter StagingFacts.copyFilter_closed).
    change (fold_left Fs.pathJoin rest (Fs.render (cwd w) ["packages"; name]))
      with src.
    destruct (Fs.walk (Fs.Dir es) rest) as [m|].
    + rewrite FsFacts.kind_copyTree. unfold copyFilter.
      destruct (Js.includes src "node_modules"), (Js.includes src "__tests__");
        reflexivity.
    + destruct (Js.includes src "node_modules" || Js.includes src "__tests__");
        reflexivity.
Qed.

Lemma copyPackagesToBuild_filtered_copy_witness :
  exists staged : Fs.Entries,
    fst (copyPackagesToBuild (sampleWorld None ["1.2.0"])) = Returned tt /\
    Fs.lookup "build" (files (snd (copyPackagesToBuild (sampleWorld None ["1.2.0"]))))
      = Some (Fs.Dir staged) /\
    option_map Fs.kind (Fs.walk (Fs.Dir staged) ["ui"; "src"; "rating.tsx"]) =
      Some (Fs.IsFile [Byte.x52; Byte.x0a]) /\
    option_map Fs.kind (Fs.walk (Fs.Dir staged) ["ui"; "src"; "__tests__"]) = None /\
    Fs.lookup "README.md" staged = None.
Proof.
  destruct (copyPackagesToBuild_filtered_copy
              (sampleWorld None ["1.2.0"])
              [ ("ui",
                 Fs.Dir
                   [ ("src",
                      Fs.Dir
                        [ ("rating.tsx", Fs.File [Byte.x52; Byte.x0a]);
                          ("__tests__",
                           Fs.Dir [("rating.spec.tsx", Fs.File [Byte.x54])]) ]);
                     ("node_modules", Fs.Dir [("clsx", Fs.Dir [])]);
                     ("package.json", Fs.File [Byte.x7b; Byte.x7d]) ]);
                ("README.md", Fs.File [Byte.x23]) ])
    as (staged & Hret & _ & Hfiles & Hnone & Hkeep).
  - reflexivity.
  - repeat constructor; simpl; intuition discriminate.
  - exists staged. split; [exact Hret|]. split; [rewrite Hfiles; reflexivity|].
    split; [|split].
    + exact (Hkeep "ui" _ ["src"; "rating.tsx"] eq_refl).
    + exact (Hkeep "ui" _ ["src"; "__tests__"] eq_refl).
    + apply Hnone. intros es. discriminate.
Defined.

(** The staging of the sample tree, computed. *)
Example sample_staging_computed :
  Fs.lookup "build"
    (files (snd (copyPackagesToBuild (sampleWorld None ["1.2.0"])))) =
  Some (Fs.Dir
          [ ("ui",
             Fs.Dir
               [ ("src", Fs.Dir [("rating.tsx", Fs.File [Byte.x52; Byte.x0a])]);
                 ("package.json", Fs.File [Byte.x7b; Byte.x7d]) ]) ]).
Proof. vm_compute. reflexivity. Qed.

(* ===================================================================== *)
(** ** Events and exceptions of the building blocks *)
(* ===================================================================== *)

Module RunFacts.

Local Open Scope list_scope.

Section Rules.

Variable P : Event -> Prop.
Variable Q : JsError -> Prop.

Lemma runs_ret {A : Type} (a : A) : runs P Q (ret a).
Proof. intros w. exists []. cbn. rewrite app_nil_r. auto. Qed.

Lemma runs_exit {A : Type} (code : Z) : runs P Q (@exit A code).
Proof. intros w. exists []. cbn. rewrite app_nil_r. auto. Qed.

Lemma runs_throw {A : Type} (e : JsError) : Q e -> runs P Q (@throw A e).
Proof. intros He w. exists []. cbn. rewrite app_nil_r. auto. Qed.

Lemma runs_bind {A B : Type} (m : M A) (k : A -> M B) :
  runs P Q m -> (forall a, runs P Q (k a)) -> runs P Q (bind m k).
Proof.
  intros Hm Hk w. unfold bind.
  destruct (Hm w) as (evs1 & Ht1 & Hp1 & Hq1).
  destruct (m w) as [[a|e|code] w1]; cbn [fst snd] in *.
  - destruct (Hk a w1) as (evs2 & Ht2 & Hp2 & Hq2).
    exists (evs1 ++ evs2). rewrite Ht2, Ht1, app_assoc.
    repeat split; [apply Forall_app; split; assumption | exact Hq2].
  - exists evs1. auto.
  - exists evs1. auto.
Qed.

(** A computation that never returns makes what follows irrelevant. *)
Lemma runs_bind_ends {A B : Type} (m : M A) (k : A -> M B) :
  runs P Q m -> (forall w a, fst (m w) <> Returned a) -> runs P Q (bind m k).
Proof.
  intros Hm Hends w. unfold bind.
  destruct (Hm w) as (evs & Ht & Hp & Hq). specialize (Hends w).
  destruct (m w) as [[a|e|code] w1]; cbn [fst snd] in *.
  - exfalso. apply (Hends a). reflexivity.
  - exists evs. auto.
  - exists evs. auto.
Qed.

Lemma runs_tryCatch {A : Type} (body handler : M A) (Q' : JsError -> Prop) :
  runs P Q' body -> runs P Q handler -> runs P Q (tryCatch body handler).
Proof.
  intros Hb Hh w. unfold tryCatch.
  destruct (Hb w) as (evs1 & Ht1 & Hp1 & _).
  destruct (body w) as [[a|e|code] w1]; cbn [fst snd] in *.
  - exists evs1. auto.
  - destruct (Hh w1) as (evs2 & Ht2 & Hp2 & Hq2).
    exists (evs1 ++ evs2). rewrite Ht2, Ht1, app_assoc.
    repeat split; [apply Forall_app; split; assumption | exact Hq2].
  - exists evs1. auto.
Qed.

Lemma runs_if {A : Type} (c : bool) (m1 m2 : M A) :
  runs P Q m1 -> runs P Q m2 -> runs P Q (if c then m1 else m2).
Proof. destruct c; auto. Qed.

Lemma runs_pointwise {A : Type} (m m' : M A) :
  (forall w, m w = m' w) -> runs P Q m -> runs P Q m'.
Proof. intros E H w. rewrite <- E. apply H. Qed.

Lemma runs_consoleLog (line : string) :
  P (ConsoleLog line) -> runs P Q (consoleLog line).
Proof. intros H w. exists [ConsoleLog line]. cbn. auto. Qed.

(** The file operations add one event each and fail only with an
    [FsError]. *)
Hypothesis P_fs :
  forall e, match e with ExecSync _ _ => False | ConsoleLog _ => False | _ => True end ->
            P e.
Hypothesis Q_external : forall e, externalFailure e -> Q e.

Ltac one_event e :=
  exists [e]; cbn [fst snd trace emit setFiles];
  split; [reflexivity|];
  split; [constructor; [apply P_fs; exact I|constructor]|];
  first [exact I | apply Q_external; exact I].

Lemma runs_fsRemove (p : Fs.Path) : runs P Q (fsRemove p).
Proof.
  intros w. unfold fsRemove.
  destruct (Fs.erase p _); one_event (FsRemove (Fs.render (cwd w) p)).
Qed.

Lemma runs_fsEnsureDir (p : Fs.Path) : runs P Q (fsEnsureDir p).
Proof.
  intros w. unfold fsEnsureDir.
  destruct (Fs.walk _ p) as [[|]|];
    [| |destruct (Fs.write p _ _) as [[|]|]];
    one_event (FsEnsureDir (Fs.render (cwd w) p)).
Qed.

Lemma runs_fsReaddir (p : Fs.Path) : runs P Q (fsReaddir p).
Proof.
  intros w. unfold fsReaddir.
  destruct (Fs.walk _ p) as [[|]|];
    one_event (FsReaddir (Fs.render (cwd w) p)).
Qed.

Lemma runs_fsStat (p : Fs.Path) : runs P Q (fsStat p).
Proof.
  intros w. unfold fsStat.
  destruct (Fs.walk _ p) as [|]; one_event (FsStat (Fs.render (cwd w) p)).
Qed.

Lemma runs_fsCopy (src dest : Fs.Path) (filter : string -> bool) :
  runs P Q (fsCopy src dest filter).
Proof.
  intros w. unfold fsCopy.
  destruct (Fs.walk _ src) as [n|];
    [destruct (Fs.copyTree filter _ n) as [img|];
     [destruct (Fs.overlay _ img) as [merged|];
      [destruct (Fs.write dest merged _) as [[|]|]|]|]|];
    one_event (FsCopy (Fs.render (cwd w) src) (Fs.render (cwd w) dest)).
Qed.

Lemma runs_copyEach (packageDirs : list string) : runs P Q (copyEach packageDirs).
Proof.
  induction packageDirs as [|pkg rest IH]; cbn [copyEach].
  - apply runs_ret.
  - apply runs_bind; [apply runs_fsStat|]. intros stats.
    apply runs_if; [exact IH|].
    apply runs_bind; [apply runs_fsCopy|]. intros _. exact IH.
Qed.

Lemma runs_copyPackagesToBuild : runs P Q copyPackagesToBuild.
Proof.
  unfold copyPackagesToBuild.
  apply runs_bind; [apply runs_fsRemove|]. intros _.
  apply runs_bind; [apply runs_fsEnsureDir|]. intros _.
  apply runs_bind; [apply runs_fsReaddir|]. intros packageDirs.
  apply runs_copyEach.
Qed.

Variable shell : string -> World -> ExecResult.

Lemma runs_execSync (cmd : string) (io : Stdio) :
  P (ExecSync cmd io) -> runs P Q (execSync shell cmd io).
Proof.
  intros H w. exists [ExecSync cmd io]. unfold execSync.
  destruct (exec_stdout (shell cmd w)); cbn; repeat split; auto.
  apply Q_external. exact I.
Qed.

Lemma runs_determineDistTag (version : string) :
  P (ExecSync npmViewCmd StdioPipe) ->
  runs P Q (determineDistTag shell version).
Proof.
  intros H. unfold determineDistTag.
  apply runs_if; [apply runs_ret|].
  apply runs_bind.
  - apply runs_tryCatch with (Q' := Q); [|apply runs_ret].
    apply runs_bind; [apply runs_execSync, H|]. intros out.
    repeat apply runs_if; apply runs_ret.
  - intros [tag|]; apply runs_ret.
Qed.

End Rules.

End RunFacts.

(* ===================================================================== *)
(** ** The two paths of the orchestrator *)
(* ===================================================================== *)

Lemma append_assoc (a b c : string) : (a ++ b) ++ c = a ++ (b ++ c).
Proof. induction a as [|x a IH]; cbn; [reflexivity|]. rewrite IH. reflexivity. Qed.

Lemma isRelativeVersionKeyword_iff (version : string) :
  isRelativeVersionKeyword version = true <->
  In version ["major"; "minor"; "patch"; "premajor"; "preminor"; "prepatch";
              "prerelease"].
Proof.
  unfold isRelativeVersionKeyword, Js.arrayIncludes.
  rewrite existsb_exists. split.
  - intros (x & Hx & E). apply String.eqb_eq in E. subst x. exact Hx.
  - intros H. exists version. split; [exact H|apply String.eqb_refl].
Qed.

(** The commands are told apart by how they start. *)
Lemma changelogCmd_head (options : Options) :
  exists tail, changelogCmd options = "pnpm nx release c" ++ tail.
Proof.
  unfold changelogCmd.
  destruct (Js.truthyOpt (from options)), (Js.truthy (gitRemote options));
    rewrite ?append_assoc; cbn [String.append]; eauto.
Qed.

Lemma publishCmd_not_versionCmd (distTag version : string) :
  publishCmd distTag <> versionCmd version.
Proof. unfold publishCmd, versionCmd. cbn [String.append]. discriminate. Qed.


Lemma publishCmd_not_changelogCmd (distTag : string) (options : Options) :
  publishCmd distTag <> changelogCmd options.
Proof.
  destruct (changelogCmd_head options) as (tail & ->).
  unfold publishCmd. cbn [String.append]. discriminate.
Qed.

Lemma npmViewCmd_not_changelogCmd (options : Options) :
  npmViewCmd <> changelogCmd options.
Proof.
  destruct (changelogCmd_head options) as (tail & ->).
  unfold npmViewCmd. cbn [String.append]. discriminate.
Qed.

Lemma npmViewCmd_not_versionCmd (version : string) :
  npmViewCmd <> versionCmd version.
Proof. unfold npmViewCmd, versionCmd. cbn [String.append]. discriminate. Qed.

Lemma bind_returned {A B : Type} (m : M A) (k : A -> M B) (w w' : World) (a : A) :
  m w = (Returned a, w') -> bind m k w = k a w'.
Proof. intros H. unfold bind. rewrite H. reflexivity. Qed.

Section Orchestrator.

Local Open Scope list_scope.

Variable shell : string -> World -> ExecResult.

(** [determineDistTag] always returns a tag, after at most one registry
    query. *)
Lemma determineDistTag_total (version : string) (w : World) :
  exists (distTag : string) (query : list Event),
    (query = [] \/ query = [ExecSync npmViewCmd StdioPipe]) /\
    (distTag = "next" \/ distTag = "previous" \/ distTag = "latest") /\
    fst (determineDistTag shell version w) = Returned distTag /\
    trace (snd (determineDistTag shell version w)) = trace w ++ query.
Proof.
  destruct (isNextPrerelease version) eqn:Hpre.
  - exists "next", []. unfold determineDistTag. rewrite Hpre. cbn.
    rewrite app_nil_r. auto.
  - rewrite (determineDistTag_after_query shell _ _ Hpre).
    eexists _, [ExecSync npmViewCmd StdioPipe]. cbn [fst snd].
    repeat split; [right; reflexivity|].
    destruct (exec_stdout (shell npmViewCmd w)) as [out|]; [|auto].
    destruct (Js.truthy (Js.trim out) && isOlderMajor version (Js.trim out)); auto.
Qed.

(** The staging path runs the version bump and the changelog command only,
    and throws either its own error or a failure from outside. *)
Lemma createGitHubRelease_runs (options : Options) :
  runs (stagingEvent options)
       (fun e => e = Error invalidVersionMessage \/ externalFailure e)
       (createGitHubRelease shell options).
Proof.
  assert (Hfs : forall e,
             match e with
             | ExecSync _ _ => False | ConsoleLog _ => False | _ => True
             end -> stagingEvent options e)
    by (intros [] H; try exact I; contradiction).
  unfold createGitHubRelease.
  apply RunFacts.runs_if; [apply RunFacts.runs_throw; left; reflexivity|].
  assert (Hq : forall e, externalFailure e ->
                         e = Error invalidVersionMessage \/ externalFailure e)
    by auto.
  apply RunFacts.runs_bind; [apply RunFacts.runs_consoleLog; exact I|]. intros _.
  apply RunFacts.runs_bind;
    [apply RunFacts.runs_copyPackagesToBuild; [exact Hfs|exact Hq]|]. intros _.
  apply RunFacts.runs_bind; [apply RunFacts.runs_consoleLog; exact I|]. intros _.
  apply RunFacts.runs_bind;
    [apply RunFacts.runs_execSync; [exact Hq|cbn; auto]|]. intros _.
  apply RunFacts.runs_bind; [apply RunFacts.runs_consoleLog; exact I|]. intros _.
  apply RunFacts.runs_bind;
    [apply RunFacts.runs_execSync; [exact Hq|cbn; auto]|]. intros _.
  apply RunFacts.runs_bind; [apply RunFacts.runs_consoleLog; exact I|]. intros _.
  apply RunFacts.runs_exit.
Qed.

(** The publish path runs the version bump, the registry query and, unless
    it is a dry run, the publish command; it never throws an error of its
    own. *)
Lemma publishToNpm_runs (options : Options) :
  runs (publishEvent options) externalFailure (publishToNpm shell options).
Proof.
  assert (Hfs : forall e,
             match e with
             | ExecSync _ _ => False | ConsoleLog _ => False | _ => True
             end -> publishEvent options e)
    by (intros [] H; try exact I; contradiction).
  unfold publishToNpm.
  apply RunFacts.runs_bind; [apply RunFacts.runs_consoleLog; exact I|]. intros _.
  apply RunFacts.runs_bind;
    [apply RunFacts.runs_copyPackagesToBuild; [exact Hfs|auto]|]. intros _.
  apply RunFacts.runs_bind; [apply RunFacts.runs_consoleLog; exact I|]. intros _.
  apply RunFacts.runs_bind;
    [apply RunFacts.runs_execSync; [auto|cbn; auto]|]. intros _.
  apply RunFacts.runs_bind;
    [apply RunFacts.runs_determineDistTag; [auto|cbn; auto]|]. intros distTag.
  apply RunFacts.runs_bind; [apply RunFacts.runs_consoleLog; exact I|]. intros _.
  destruct (dryRun options) eqn:Hdry.
  - apply RunFacts.runs_bind_ends; [|intros w a; discriminate].
    apply RunFacts.runs_bind; [apply RunFacts.runs_consoleLog; exact I|].
    intros _. apply RunFacts.runs_exit.
  - apply RunFacts.runs_bind; [apply RunFacts.runs_ret|]. intros _.
    apply RunFacts.runs_bind; [|intros _; apply RunFacts.runs_ret].
    apply RunFacts.runs_execSync; [auto|].
    cbn. right. right. split; [exact Hdry|]. exists distTag. auto.
Qed.

(** The publish path up to the version bump, when the copy and the bump
    succeed. *)
Lemma publishToNpm_after_bump (options : Options) (w : World) (pkgs : Fs.Entries) :
  Fs.lookup "packages" (files w) = Some (Fs.Dir pkgs) ->
  NoDup (map fst pkgs) ->
  (forall w', exec_stdout (shell (versionCmd (version options)) w') <> None) ->
  exists w2 : World,
    trace w2 =
      trace w ++
      [ConsoleLog "Copying packages to build directory..."] ++
      copyPackagesEvents (cwd w) pkgs ++
      [ConsoleLog ("Bumping versions to " ++ version options ++ "...");
       ExecSync (versionCmd (version options)) StdioIgnore] /\
    publishToNpm shell options w =
    (distTag <- determineDistTag shell (version options) ;;
     consoleLog ("Publishing with tag: " ++ distTag) ;;
     (if dryRun options then
        consoleLog ("[DRY RUN] Would execute: " ++ publishCmd distTag) ;;
        exit 0%Z
      else ret tt) ;;
     execSync shell (publishCmd distTag) StdioInherit ;;
     ret tt) w2.
Proof.
  intros Hpk Hnd Hbump.
  set (w0 := emit (ConsoleLog "Copying packages to build directory...") w).
  destruct (StagingFacts.copyPackagesToBuild_run w0 pkgs Hpk Hnd)
    as (staged & Hcopy & _).
  match type of Hcopy with _ = (_, ?x) => set (wc := x) in * end.
  set (w1 := emit (ConsoleLog ("Bumping versions to " ++ version options ++ "..."))
                  wc).
  exists (afterExec shell (versionCmd (version options)) StdioIgnore w1).
  split.
  - cbn. rewrite <- !app_assoc. reflexivity.
  - unfold publishToNpm.
    rewrite (bind_returned (consoleLog _) _ w w0 tt eq_refl).
    rewrite (bind_returned _ _ w0 wc tt Hcopy).
    rewrite (bind_returned (consoleLog _) _ wc w1 tt eq_refl).
    destruct (exec_stdout (shell (versionCmd (version options)) w1)) as [out|] eqn:Hout;
      [|exfalso; exact (Hbump w1 Hout)].
    rewrite (bind_returned _ _ w1
               (afterExec shell (versionCmd (version options)) StdioIgnore w1) out);
      [reflexivity|].
    unfold execSync. rewrite Hout. reflexivity.
Qed.

End Orchestrator.

(** The two paths do not share their last step: the staging path neither
    asks the registry nor publishes, the publish path does not run the
    changelog command. *)
Lemma stagingEvent_not_publish (options : Options) (distTag : string) (io : Stdio) :
  ~ stagingEvent options (ExecSync (publishCmd distTag) io).
Proof.
  intros [[H|H] _].
  - exact (publishCmd_not_versionCmd _ _ H).
  - exact (publishCmd_not_changelogCmd _ _ H).
Qed.

Lemma stagingEvent_not_query (options : Options) (io : Stdio) :
  ~ stagingEvent options (ExecSync npmViewCmd io).
Proof.
  intros [[H|H] _].
  - exact (npmViewCmd_not_versionCmd _ H).
  - exact (npmViewCmd_not_changelogCmd _ H).
Qed.

Lemma publishEvent_not_changelog (options : Options) (io : Stdio) :
  ~ publishEvent options (ExecSync (changelogCmd options) io).
Proof.
  destruct (changelogCmd_head options) as (tail & E).
  intros [[H _]|[[H _]|(_ & distTag & H & _)]]; rewrite E in H;
    unfold versionCmd, npmViewCmd, publishCmd in H; cbn [String.append] in H;
    discriminate.
Qed.

Section Paths.

Local Open Scope list_scope.

Variable shell : string -> World -> ExecResult.


(** C4.  On the staging path (marker absent) a relative bump keyword makes
    the run fail with the error of [createGitHubRelease], and the state of
    the process is the one it started from: no file is touched, nothing is
    printed, no command is run. *)
Theorem staging_rejects_relative_keyword (w : World) :
  Js.truthyOpt (env_CI w) = false ->
  In (version (parseArgs (argv w)))
     ["major"; "minor"; "patch"; "premajor"; "preminor"; "prepatch";
      "prerelease"] ->
  main shell w = (Thrown (Error invalidVersionMessage), w).
Proof.
  intros Hci Hkw. apply isRelativeVersionKeyword_iff in Hkw.
  unfold main. rewrite Hci. cbn [negb].
  unfold createGitHubRelease. rewrite Hkw. reflexivity.
Qed.

(** An empty marker is no marker: the test is the truthiness of
    [process.env.CI]. *)
Lemma main_empty_marker (w : World) :
  env_CI w = Some EmptyString ->
  main shell w = createGitHubRelease shell (parseArgs (argv w)) w.
Proof. intros H. unfold main. rewrite H. reflexivity. Qed.


End Paths.

Lemma staging_rejects_relative_keyword_witness :
  main (sampleShell (Some "2.0.0")) (sampleWorld None ["minor"]) =
  (Thrown (Error invalidVersionMessage), sampleWorld None ["minor"]).
Proof.
  apply (staging_rejects_relative_keyword
           (sampleShell (Some "2.0.0")) (sampleWorld None ["minor"]));
    [reflexivity | right; left; reflexivity].
Defined.


(** The dry run of the sample, computed: the tag is [previous] and the
    command is printed, not run. *)
Example sample_dry_run_computed :
  let r := main (sampleShell (Some "2.0.0"))
             (sampleWorld (Some "true") ["1.2.0"; "--dry-run"]) in
  fst r = Exited 0 /\
  commands (trace (snd r)) =
    ["pnpm nx release version --specifier 1.2.0";
     "npm view @juristr/tusky-design version 2>/dev/null"] /\
  last (trace (snd r)) (ConsoleLog EmptyString) =
    ConsoleLog "[DRY RUN] Would execute: pnpm nx release publish --registry=https://registry.npmjs.org --tag=previous".
Proof. vm_compute. repeat split. Qed.

(* ===================================================================== *)
(** ** Further properties of the argument parser *)
(* ===================================================================== *)

(** X1.  An argument that starts with [--] and is none of [--dry-run],
    [--from=...], [--git-remote=...] is skipped: the options are those
    parsed without it, wherever it stands. *)
Theorem parseArgs_ignores_unknown_flag
  (node script a : string) (before after : list string) :
  Js.startsWith a "--" = true ->
  a <> "--dry-run" ->
  Js.startsWith a "--from=" = false ->
  Js.startsWith a "--git-remote=" = false ->
  parseArgs (node :: script :: before ++ a :: after)%list =
  parseArgs (node :: script :: before ++ after)%list.
Proof.
  intros Hflag Hdry Hfrom Hremote.
  unfold parseArgs. cbn [skipn]. rewrite !fold_left_app. cbn [fold_left].
  f_equal. unfold parseArg.
  apply String.eqb_neq in Hdry. rewrite Hdry, Hfrom, Hremote, Hflag.
  reflexivity.
Qed.

Lemma parseArgs_ignores_unknown_flag_witness :
  parseArgs ["node"; "scripts/release.ts"; "--verbose"; "1.2.0"; "--dry-run=yes"] =
  parseArgs ["node"; "scripts/release.ts"; "--verbose"; "1.2.0"].
Proof.
  apply (parseArgs_ignores_unknown_flag "node" "scripts/release.ts"
           "--dry-run=yes" ["--verbose"; "1.2.0"] []);
    [reflexivity | discriminate | reflexivity | reflexivity].
Defined.

(* ===================================================================== *)
(** ** Further properties of the tag resolution *)
(* ===================================================================== *)

Module NumeralFacts.








End NumeralFacts.

Lemma trimStart_blank (s : string) :
  (forall c, In c (list_ascii_of_string s) -> Js.isWhiteSpace c = true) ->
  Js.trimStart s = EmptyString.
Proof.
  induction s as [|c s IH]; intros H; [reflexivity|].
  cbn [Js.trimStart]. rewrite (H c (or_introl eq_refl)).
  apply IH. intros x Hx. apply H. right. exact Hx.
Qed.

Section MoreDistTag.

Variable shell : string -> World -> ExecResult.

(** X2.  [determineDistTag] always returns, with one of three tags: either
    [next], for a version that passes the prerelease test, and then the
    state is untouched; or [previous] or [latest], for every other version,
    after exactly one registry query. *)
Theorem determineDistTag_outcomes (version : string) (w : World) :
  exists distTag,
    fst (determineDistTag shell version w) = Returned distTag /\
    ((distTag = "next" /\ isNextPrerelease version = true /\
      snd (determineDistTag shell version w) = w) \/
     ((distTag = "previous" \/ distTag = "latest") /\
      isNextPrerelease version = false /\
      snd (determineDistTag shell version w) =
      afterExec shell npmViewCmd StdioPipe w)).
Proof.
  destruct (isNextPrerelease version) eqn:Hpre.
  - exists "next". unfold determineDistTag. rewrite Hpre. cbn. auto.
  - rewrite (determineDistTag_after_query shell _ _ Hpre). cbn [fst snd].
    eexists. split; [reflexivity|]. right.
    split; [|split; reflexivity].
    destruct (exec_stdout (shell npmViewCmd w)) as [out|]; [|auto].
    destruct (Js.truthy (Js.trim out) && isOlderMajor version (Js.trim out)); auto.
Qed.

(** X3.  The tag is [next] exactly for a version whose text after the first
    ['-'] starts with [beta], [rc] or [alpha]; a version without ['-'] never
    gets [next], whatever the registry answers. *)
Theorem determineDistTag_next_iff (w : World) :
  (forall core label,
     Js.includes core "-" = false ->
     (fst (determineDistTag shell (core ++ "-" ++ label) w) = Returned "next" <->
      Js.startsWith label "beta" || Js.startsWith label "rc" ||
      Js.startsWith label "alpha" = true)) /\
  (forall version,
     Js.includes version "-" = false ->
     fst (determineDistTag shell version w) <> Returned "next").
Proof.
  assert (Hnot : forall version,
             isNextPrerelease version = false ->
             fst (determineDistTag shell version w) <> Returned "next").
  { intros version Hpre. rewrite (determineDistTag_after_query shell _ _ Hpre).
    cbn [fst]. destruct (exec_stdout (shell npmViewCmd w)) as [out|];
      [|discriminate].
    destruct (Js.truthy (Js.trim out) && isOlderMajor version (Js.trim out));
      discriminate. }
  split.
  - intros core label Hcore.
    rewrite <- (isNextPrerelease_first_label core label Hcore).
    destruct (isNextPrerelease (core ++ "-" ++ label)) eqn:Hpre.
    + unfold determineDistTag. rewrite Hpre. cbn. tauto.
    + split; [|discriminate]. intros H. exfalso. exact (Hnot _ Hpre H).
  - intros version Hsep. apply Hnot, isNextPrerelease_no_separator, Hsep.
Qed.

(** X4.  A registry answer made of white space only (or empty) counts as no
    published version: the tag is [latest]. *)
Theorem determineDistTag_blank_answer (version out : string) (w : World) :
  isNextPrerelease version = false ->
  exec_stdout (shell npmViewCmd w) = Some out ->
  (forall c, In c (list_ascii_of_string out) -> Js.isWhiteSpace c = true) ->
  fst (determineDistTag shell version w) = Returned "latest".
Proof.
  intros Hpre Hout Hblank.
  rewrite (determineDistTag_after_query shell _ _ Hpre), Hout. cbn [fst].
  unfold Js.trim. rewrite (trimStart_blank _ Hblank). reflexivity.
Qed.


End MoreDistTag.

(** Above 2^53 two majors may be read as the same number: the candidate
    9007199254740992 is not older than the published 9007199254740993. *)
Example determineDistTag_rounded_majors :
  Js.parseInt "9007199254740993" = Some 9007199254740992%Z /\
  fst (determineDistTag (sampleShell (Some "9007199254740993.0.0"))
         "9007199254740992.0.0" (sampleWorld (Some "true") [])) =
  Returned "latest".
Proof. split; vm_compute; reflexivity. Qed.

Lemma determineDistTag_next_iff_witness :
  fst (determineDistTag (sampleShell (Some "1.0.0")) "2.0.0-canary-beta"
         (sampleWorld (Some "true") [])) <> Returned "next".
Proof.
  destruct (determineDistTag_next_iff (sampleShell (Some "1.0.0"))
              (sampleWorld (Some "true") [])) as (H & _).
  intros E. apply (H "2.0.0" "canary-beta" eq_refl) in E. discriminate E.
Defined.

Lemma determineDistTag_blank_answer_witness :
  fst (determineDistTag (sampleShell (Some (String "010"%char " ")))
         "0.9.0" (sampleWorld (Some "true") [])) = Returned "latest".
Proof.
  apply (determineDistTag_blank_answer
           (sampleShell (Some (String "010"%char " "))) "0.9.0"
           (String "010"%char " "));
    [reflexivity | reflexivity |].
  intros c [<-|[<-|[]]]; reflexivity.
Defined.


(* ===================================================================== *)
(** ** How the runs end *)
(* ===================================================================== *)

Module EndFacts.

Lemma neverReturns_throw {A : Type} (e : JsError) : neverReturns (@throw A e).
Proof. intros w a. discriminate. Qed.

Lemma neverReturns_exit {A : Type} (code : Z) : neverReturns (@exit A code).
Proof. intros w a. discriminate. Qed.

Lemma neverReturns_bind_l {A B : Type} (m : M A) (k : A -> M B) :
  neverReturns m -> neverReturns (bind m k).
Proof.
  intros H w b. unfold bind. specialize (H w).
  destruct (m w) as [[a|e|code] w1]; cbn [fst] in *;
    [exfalso; apply (H a); reflexivity | discriminate | discriminate].
Qed.

Lemma neverReturns_bind_r {A B : Type} (m : M A) (k : A -> M B) :
  (forall a, neverReturns (k a)) -> neverReturns (bind m k).
Proof.
  intros H w b. unfold bind.
  destruct (m w) as [[a|e|code] w1]; cbn [fst];
    [apply H | discriminate | discriminate].
Qed.

Lemma exitsWith0_bind {A B : Type} (m : M A) (k : A -> M B) :
  exitsWith0 m -> (forall a, exitsWith0 (k a)) -> exitsWith0 (bind m k).
Proof.
  intros Hm Hk w code. unfold bind. specialize (Hm w).
  destruct (m w) as [[a|e|c] w1]; cbn [fst] in *.
  - apply Hk.
  - discriminate.
  - intros [= <-]. apply Hm. reflexivity.
Qed.

Lemma exitsWith0_if {A : Type} (c : bool) (m1 m2 : M A) :
  exitsWith0 m1 -> exitsWith0 m2 -> exitsWith0 (if c then m1 else m2).
Proof. destruct c; auto. Qed.

Lemma exitsWith0_ret {A : Type} (a : A) : exitsWith0 (ret a).
Proof. intros w code. discriminate. Qed.

Lemma exitsWith0_throw {A : Type} (e : JsError) : exitsWith0 (@throw A e).
Proof. intros w code. discriminate. Qed.

Lemma exitsWith0_exit {A : Type} : exitsWith0 (@exit A 0%Z).
Proof. intros w code [= <-]. reflexivity. Qed.

Lemma exitsWith0_consoleLog (line : string) : exitsWith0 (consoleLog line).
Proof. intros w code. discriminate. Qed.

Lemma exitsWith0_fsRemove (p : Fs.Path) : exitsWith0 (fsRemove p).
Proof.
  intros w code. unfold fsRemove. destruct (Fs.erase p _); discriminate.
Qed.

Lemma exitsWith0_fsEnsureDir (p : Fs.Path) : exitsWith0 (fsEnsureDir p).
Proof.
  intros w code. unfold fsEnsureDir.
  destruct (Fs.walk _ p) as [[|]|];
    [| |destruct (Fs.write p _ _) as [[|]|]]; discriminate.
Qed.

Lemma exitsWith0_fsReaddir (p : Fs.Path) : exitsWith0 (fsReaddir p).
Proof.
  intros w code. unfold fsReaddir.
  destruct (Fs.walk _ p) as [[|]|]; discriminate.
Qed.

Lemma exitsWith0_fsStat (p : Fs.Path) : exitsWith0 (fsStat p).
Proof.
  intros w code. unfold fsStat. destruct (Fs.walk _ p); discriminate.
Qed.

Lemma exitsWith0_fsCopy (src dest : Fs.Path) (filter : string -> bool) :
  exitsWith0 (fsCopy src dest filter).
Proof.
  intros w code. unfold fsCopy.
  destruct (Fs.walk _ src) as [n|];
    [destruct (Fs.copyTree filter _ n) as [img|];
     [destruct (Fs.overlay _ img) as [merged|];
      [destruct (Fs.write dest merged _) as [[|]|]|]|]|];
    discriminate.
Qed.

Lemma exitsWith0_copyEach (packageDirs : list string) :
  exitsWith0 (copyEach packageDirs).
Proof.
  induction packageDirs as [|pkg rest IH]; cbn [copyEach].
  - apply exitsWith0_ret.
  - apply exitsWith0_bind; [apply exitsWith0_fsStat|]. intros stats.
    apply exitsWith0_if; [exact IH|].
    apply exitsWith0_bind; [apply exitsWith0_fsCopy|]. intros _. exact IH.
Qed.

Lemma exitsWith0_copyPackagesToBuild : exitsWith0 copyPackagesToBuild.
Proof.
  unfold copyPackagesToBuild.
  apply exitsWith0_bind; [apply exitsWith0_fsRemove|]. intros _.
  apply exitsWith0_bind; [apply exitsWith0_fsEnsureDir|]. intros _.
  apply exitsWith0_bind; [apply exitsWith0_fsReaddir|]. intros packageDirs.
  apply exitsWith0_copyEach.
Qed.

Section WithShell.

Variable shell : string -> World -> ExecResult.

Lemma exitsWith0_execSync (cmd : string) (io : Stdio) :
  exitsWith0 (execSync shell cmd io).
Proof.
  intros w code. unfold execSync.
  destruct (exec_stdout (shell cmd w)); discriminate.
Qed.

Lemma exitsWith0_determineDistTag (version : string) :
  exitsWith0 (determineDistTag shell version).
Proof.
  intros w code.
  destruct (determineDistTag_total shell version w) as (tag & _ & _ & _ & E & _).
  rewrite E. discriminate.
Qed.

Lemma exitsWith0_createGitHubRelease (options : Options) :
  exitsWith0 (createGitHubRelease shell options).
Proof.
  unfold createGitHubRelease.
  apply exitsWith0_if; [apply exitsWith0_throw|].
  apply exitsWith0_bind; [apply exitsWith0_consoleLog|]. intros _.
  apply exitsWith0_bind; [apply exitsWith0_copyPackagesToBuild|]. intros _.
  apply exitsWith0_bind; [apply exitsWith0_consoleLog|]. intros _.
  apply exitsWith0_bind; [apply exitsWith0_execSync|]. intros _.
  apply exitsWith0_bind; [apply exitsWith0_consoleLog|]. intros _.
  apply exitsWith0_bind; [apply exitsWith0_execSync|]. intros _.
  apply exitsWith0_bind; [apply exitsWith0_consoleLog|]. intros _.
  apply exitsWith0_exit.
Qed.

Lemma exitsWith0_publishToNpm (options : Options) :
  exitsWith0 (publishToNpm shell options).
Proof.
  unfold publishToNpm.
  apply exitsWith0_bind; [apply exitsWith0_consoleLog|]. intros _.
  apply exitsWith0_bind; [apply exitsWith0_copyPackagesToBuild|]. intros _.
  apply exitsWith0_bind; [apply exitsWith0_consoleLog|]. intros _.
  apply exitsWith0_bind; [apply exitsWith0_execSync|]. intros _.
  apply exitsWith0_bind; [apply exitsWith0_determineDistTag|]. intros distTag.
  apply exitsWith0_bind; [apply exitsWith0_consoleLog|]. intros _.
  apply exitsWith0_bind.
  - apply exitsWith0_if; [|apply exitsWith0_ret].
    apply exitsWith0_bind; [apply exitsWith0_consoleLog|]. intros _.
    apply exitsWith0_exit.
  - intros _. apply exitsWith0_bind; [apply exitsWith0_execSync|].
    intros _. apply exitsWith0_ret.
Qed.

Lemma neverReturns_createGitHubRelease (options : Options) :
  neverReturns (createGitHubRelease shell options).
Proof.
  unfold createGitHubRelease.
  destruct (isRelativeVersionKeyword (version options));
    [apply neverReturns_throw|].
  do 7 (apply neverReturns_bind_r; intros ?).
  apply neverReturns_exit.
Qed.

Lemma neverReturns_publishToNpm_dry (options : Options) :
  dryRun options = true -> neverReturns (publishToNpm shell options).
Proof.
  intros Hdry. unfold publishToNpm. rewrite Hdry.
  do 6 (apply neverReturns_bind_r; intros ?).
  apply neverReturns_bind_l, neverReturns_bind_r. intros _.
  apply neverReturns_exit.
Qed.

(** Past its guard, the staging path fails only from outside. *)
Lemma createGitHubRelease_literal_runs (options : Options) :
  isRelativeVersionKeyword (version options) = false ->
  runs (stagingEvent options) externalFailure (createGitHubRelease shell options).
Proof.
  intros Hkw.
  assert (Hfs : forall e,
             match e with
             | ExecSync _ _ => False | ConsoleLog _ => False | _ => True
             end -> stagingEvent options e)
    by (intros [] H; try exact I; contradiction).
  unfold createGitHubRelease. rewrite Hkw.
  apply RunFacts.runs_bind; [apply RunFacts.runs_consoleLog; exact I|]. intros _.
  apply RunFacts.runs_bind;
    [apply RunFacts.runs_copyPackagesToBuild; [exact Hfs|auto]|]. intros _.
  apply RunFacts.runs_bind; [apply RunFacts.runs_consoleLog; exact I|]. intros _.
  apply RunFacts.runs_bind;
    [apply RunFacts.runs_execSync; [auto|cbn; auto]|]. intros _.
  apply RunFacts.runs_bind; [apply RunFacts.runs_consoleLog; exact I|]. intros _.
  apply RunFacts.runs_bind;
    [apply RunFacts.runs_execSync; [auto|cbn; auto]|]. intros _.
  apply RunFacts.runs_bind; [apply RunFacts.runs_consoleLog; exact I|]. intros _.
  apply RunFacts.runs_exit.
Qed.

End WithShell.

End EndFacts.

Section Endings.

Variable shell : string -> World -> ExecResult.

Lemma createGitHubRelease_ends (options : Options) (w : World) :
  fst (createGitHubRelease shell options w) = Exited 0 \/
  (fst (createGitHubRelease shell options w) = Thrown (Error invalidVersionMessage) /\
   isRelativeVersionKeyword (version options) = true) \/
  (exists e,
     fst (createGitHubRelease shell options w) = Thrown e /\
     externalFailure e /\
     isRelativeVersionKeyword (version options) = false).
Proof.
  destruct (isRelativeVersionKeyword (version options)) eqn:Hkw.
  - right. left. unfold createGitHubRelease. rewrite Hkw. auto.
  - pose proof (EndFacts.neverReturns_createGitHubRelease shell options w) as Hret.
    pose proof (EndFacts.exitsWith0_createGitHubRelease shell options w) as Hexit.
    destruct (EndFacts.createGitHubRelease_literal_runs shell options Hkw w)
      as (_ & _ & _ & Hq).
    destruct (fst (createGitHubRelease shell options w)) as [a|e|code].
    + exfalso. apply (Hret a). reflexivity.
    + right. right. exists e. auto.
    + left. rewrite (Hexit code eq_refl). reflexivity.
Qed.

(** X7.  How a run of the script ends:
    - it returns normally only on the publish path and outside of a dry
      run;
    - when it calls [process.exit], the status is 0;
    - it throws its own error only on the staging path, for a relative
      keyword; every other exception is the failure of a file operation or
      of a command. *)
Theorem main_outcomes (w : World) :
  let options := parseArgs (argv w) in
  match fst (main shell w) with
  | Returned _ =>
      Js.truthyOpt (env_CI w) = true /\ dryRun options = false
  | Exited code => code = 0%Z
  | Thrown e =>
      (e = Error invalidVersionMessage /\
       Js.truthyOpt (env_CI w) = false /\
       isRelativeVersionKeyword (version options) = true) \/
      externalFailure e
  end.
Proof.
  intros options. unfold main. fold options.
  destruct (Js.truthyOpt (env_CI w)) eqn:Hci; cbn [negb].
  - pose proof (EndFacts.exitsWith0_publishToNpm shell options w) as Hexit.
    destruct (publishToNpm_runs shell options w) as (_ & _ & _ & Hq).
    destruct (fst (publishToNpm shell options w)) as [a|e|code] eqn:E.
    + split; [reflexivity|].
      destruct (dryRun options) eqn:Hdry; [|reflexivity].
      exfalso.
      exact (EndFacts.neverReturns_publishToNpm_dry shell options Hdry w a E).
    + right. exact Hq.
    + apply Hexit. reflexivity.
  - destruct (createGitHubRelease_ends options w)
      as [E|[[E Hkw]|(e & E & He & _)]]; rewrite E; auto.
Qed.

End Endings.

(* ===================================================================== *)
(** ** Complete runs of the two paths *)
(* ===================================================================== *)

Lemma bind_thrown {A B : Type} (m : M A) (k : A -> M B) (w w' : World) (e : JsError) :
  m w = (Thrown e, w') -> bind m k w = (Thrown e, w').
Proof. intros H. unfold bind. rewrite H. reflexivity. Qed.

Section Runs.

Local Open Scope list_scope.

Variable shell : string -> World -> ExecResult.

Lemma execSync_ok (cmd : string) (io : Stdio) (w : World) :
  exec_stdout (shell cmd w) <> None ->
  exists out, execSync shell cmd io w = (Returned out, afterExec shell cmd io w).
Proof.
  intros H. unfold execSync.
  destruct (exec_stdout (shell cmd w)) as [out|]; [eauto|contradiction].
Qed.

Lemma execSync_failed (cmd : string) (io : Stdio) (w : World) :
  exec_stdout (shell cmd w) = None ->
  execSync shell cmd io w = (Thrown (ExecError cmd), afterExec shell cmd io w).
Proof. intros H. unfold execSync. rewrite H. reflexivity. Qed.

(** Both paths start alike: the first log line, the copy, the second log
    line; then the version bump, silent or not. *)
Lemma staged_then_bump (version : string) (io : Stdio) (w : World) (pkgs : Fs.Entries) :
  Fs.lookup "packages" (files w) = Some (Fs.Dir pkgs) ->
  NoDup (map fst pkgs) ->
  exists w1 : World,
    trace w1 =
      trace w ++
      [ConsoleLog "Copying packages to build directory..."] ++
      copyPackagesEvents (cwd w) pkgs ++
      [ConsoleLog ("Bumping versions to " ++ version ++ "...")] /\
    forall (B : Type) (k : string -> M B),
      (consoleLog "Copying packages to build directory..." ;;
       copyPackagesToBuild ;;
       consoleLog ("Bumping versions to " ++ version ++ "...") ;;
       out <- execSync shell (versionCmd version) io ;; k out) w =
      (out <- execSync shell (versionCmd version) io ;; k out) w1.
Proof.
  intros Hpk Hnd.
  set (w0 := emit (ConsoleLog "Copying packages to build directory...") w).
  destruct (StagingFacts.copyPackagesToBuild_run w0 pkgs Hpk Hnd)
    as (staged & Hcopy & _).
  match type of Hcopy with _ = (_, ?x) => set (wc := x) in * end.
  exists (emit (ConsoleLog ("Bumping versions to " ++ version ++ "...")) wc).
  split.
  - cbn. rewrite <- !app_assoc. reflexivity.
  - intros B k.
    rewrite (bind_returned (consoleLog _) _ w w0 tt eq_refl).
    rewrite (bind_returned _ _ w0 wc tt Hcopy).
    rewrite (bind_returned (consoleLog _) _ wc _ tt eq_refl).
    reflexivity.
Qed.

(** X8.  A complete run of the staging path, for a version that is not a
    relative keyword, when the packages directory exists and both commands
    exit with 0: the packages are copied, the version is bumped, the
    changelog command is run, and the process exits with status 0.  The
    [dryRun] option plays no part: the changelog command is run whether or
    not it is set. *)
Theorem staging_complete_run (options : Options) (w : World) (pkgs : Fs.Entries) :
  isRelativeVersionKeyword (version options) = false ->
  Fs.lookup "packages" (files w) = Some (Fs.Dir pkgs) ->
  NoDup (map fst pkgs) ->
  (forall w', exec_stdout (shell (versionCmd (version options)) w') <> None) ->
  (forall w', exec_stdout (shell (changelogCmd options) w') <> None) ->
  fst (createGitHubRelease shell options w) = Exited 0 /\
  trace (snd (createGitHubRelease shell options w)) =
    trace w ++
    [ConsoleLog "Copying packages to build directory..."] ++
    copyPackagesEvents (cwd w) pkgs ++
    [ConsoleLog ("Bumping versions to " ++ version options ++ "...");
     ExecSync (versionCmd (version options)) StdioInherit;
     ConsoleLog "Creating changelog and GitHub Release...";
     ExecSync (changelogCmd options) StdioInherit;
     ConsoleLog (String "010"%char
                   "GitHub Release created! Check GitHub Actions for publish status.")].
Proof.
  intros Hkw Hpk Hnd Hbump Hlog.
  destruct (staged_then_bump (version options) StdioInherit w pkgs Hpk Hnd)
    as (w1 & Ht1 & Hstart).
  unfold createGitHubRelease. rewrite Hkw, Hstart.
  destruct (execSync_ok _ StdioInherit w1 (Hbump w1)) as (out1 & E1).
  rewrite (bind_returned _ _ _ _ _ E1).
  rewrite (bind_returned (consoleLog _) _ _ _ tt eq_refl).
  match goal with
  | |- context [bind (execSync shell (changelogCmd options) StdioInherit) _ ?x] =>
      destruct (execSync_ok (changelogCmd options) StdioInherit x (Hlog x))
        as (out2 & E2)
  end.
  rewrite (bind_returned _ _ _ _ _ E2).
  rewrite (bind_returned (consoleLog _) _ _ _ tt eq_refl).
  cbn [exit fst snd trace emit setFiles afterExec].
  split; [reflexivity|].
  rewrite Ht1, <- !app_assoc. reflexivity.
Qed.

(** X9.  On the staging path a failing version bump stops the run: the
    exception of the command is thrown, no changelog command is run and the
    process does not exit with 0.  Likewise a failing changelog command is
    the last thing the run does. *)
Theorem staging_command_failure (options : Options) (w : World) (pkgs : Fs.Entries) :
  isRelativeVersionKeyword (version options) = false ->
  Fs.lookup "packages" (files w) = Some (Fs.Dir pkgs) ->
  NoDup (map fst pkgs) ->
  ((forall w', exec_stdout (shell (versionCmd (version options)) w') = None) ->
   fst (createGitHubRelease shell options w) =
     Thrown (ExecError (versionCmd (version options))) /\
   trace (snd (createGitHubRelease shell options w)) =
     trace w ++
     [ConsoleLog "Copying packages to build directory..."] ++
     copyPackagesEvents (cwd w) pkgs ++
     [ConsoleLog ("Bumping versions to " ++ version options ++ "...");
      ExecSync (versionCmd (version options)) StdioInherit]) /\
  ((forall w', exec_stdout (shell (versionCmd (version options)) w') <> None) ->
   (forall w', exec_stdout (shell (changelogCmd options) w') = None) ->
   fst (createGitHubRelease shell options w) =
     Thrown (ExecError (changelogCmd options)) /\
   trace (snd (createGitHubRelease shell options w)) =
     trace w ++
     [ConsoleLog "Copying packages to build directory..."] ++
     copyPackagesEvents (cwd w) pkgs ++
     [ConsoleLog ("Bumping versions to " ++ version options ++ "...");
      ExecSync (versionCmd (version options)) StdioInherit;
      ConsoleLog "Creating changelog and GitHub Release...";
      ExecSync (changelogCmd options) StdioInherit]).
Proof.
  intros Hkw Hpk Hnd.
  destruct (staged_then_bump (version options) StdioInherit w pkgs Hpk Hnd)
    as (w1 & Ht1 & Hstart).
  unfold createGitHubRelease. rewrite Hkw, Hstart. split.
  - intros Hbump.
    rewrite (bind_thrown _ _ _ _ _ (execSync_failed _ StdioInherit w1 (Hbump w1))).
    cbn [fst snd trace emit setFiles afterExec].
    split; [reflexivity|]. rewrite Ht1, <- !app_assoc. reflexivity.
  - intros Hbump Hlog.
    destruct (execSync_ok _ StdioInherit w1 (Hbump w1)) as (out1 & E1).
    rewrite (bind_returned _ _ _ _ _ E1).
    rewrite (bind_returned (consoleLog _) _ _ _ tt eq_refl).
    match goal with
    | |- context [bind (execSync shell (changelogCmd options) StdioInherit) _ ?x] =>
        rewrite (bind_thrown _ _ _ _ _
                   (execSync_failed (changelogCmd options) StdioInherit x (Hlog x)))
    end.
    cbn [fst snd trace emit setFiles afterExec].
    split; [reflexivity|]. rewrite Ht1, <- !app_assoc. reflexivity.
Qed.

(** X10.  A complete run of the publish path outside of a dry run, when the
    packages directory exists and the version bump exits with 0: after the
    copy, the silent bump and the tag resolution, the publish command is run
    with the resolved tag, which is one of [next], [previous], [latest].
    The run returns when the publish command exits with 0 and throws its
    failure otherwise. *)
Theorem publish_complete_run (options : Options) (w : World) (pkgs : Fs.Entries) :
  dryRun options = false ->
  Fs.lookup "packages" (files w) = Some (Fs.Dir pkgs) ->
  NoDup (map fst pkgs) ->
  (forall w', exec_stdout (shell (versionCmd (version options)) w') <> None) ->
  exists (distTag : string) (query : list Event) (w3 : World),
    (distTag = "next" \/ distTag = "previous" \/ distTag = "latest") /\
    (query = [] \/ query = [ExecSync npmViewCmd StdioPipe]) /\
    trace (snd (publishToNpm shell options w)) =
      trace w ++
      [ConsoleLog "Copying packages to build directory..."] ++
      copyPackagesEvents (cwd w) pkgs ++
      [ConsoleLog ("Bumping versions to " ++ version options ++ "...");
       ExecSync (versionCmd (version options)) StdioIgnore] ++
      query ++
      [ConsoleLog ("Publishing with tag: " ++ distTag);
       ExecSync (publishCmd distTag) StdioInherit] /\
    trace (snd (publishToNpm shell options w)) =
      trace w3 ++ [ExecSync (publishCmd distTag) StdioInherit] /\
    fst (publishToNpm shell options w) =
      match exec_stdout (shell (publishCmd distTag) w3) with
      | Some _ => Returned tt
      | None => Thrown (ExecError (publishCmd distTag))
      end.
Proof.
  intros Hdry Hpk Hnd Hbump.
  destruct (publishToNpm_after_bump shell options w pkgs Hpk Hnd Hbump)
    as (w2 & Ht2 & Hrun).
  destruct (determineDistTag_total shell (version options) w2)
    as (distTag & query & Hquery & Hrange & Htag & Ht3).
  destruct (determineDistTag shell (version options) w2) as [o wt] eqn:E.
  cbn [fst snd] in Htag, Ht3. subst o.
  exists distTag, query,
    (emit (ConsoleLog ("Publishing with tag: " ++ distTag)) wt).
  split; [exact Hrange|]. split; [exact Hquery|].
  rewrite Hrun.
  rewrite (bind_returned _ _ w2 wt distTag E).
  rewrite (bind_returned (consoleLog _) _ wt _ tt eq_refl).
  rewrite Hdry.
  rewrite (bind_returned (ret tt) _ _ _ tt eq_refl).
  unfold bind, execSync.
  destruct (exec_stdout (shell (publishCmd distTag) _));
    cbn [fst snd trace emit setFiles afterExec ret];
    (split; [rewrite Ht3, Ht2, <- !app_assoc; reflexivity|]);
    split; reflexivity.
Qed.

(** X11.  On the publish path a failing version bump stops the run before
    the registry is asked and before anything is published. *)
Theorem publish_bump_failure (options : Options) (w : World) (pkgs : Fs.Entries) :
  Fs.lookup "packages" (files w) = Some (Fs.Dir pkgs) ->
  NoDup (map fst pkgs) ->
  (forall w', exec_stdout (shell (versionCmd (version options)) w') = None) ->
  fst (publishToNpm shell options w) =
    Thrown (ExecError (versionCmd (version options))) /\
  trace (snd (publishToNpm shell options w)) =
    trace w ++
    [ConsoleLog "Copying packages to build directory..."] ++
    copyPackagesEvents (cwd w) pkgs ++
    [ConsoleLog ("Bumping versions to " ++ version options ++ "...");
     ExecSync (versionCmd (version options)) StdioIgnore].
Proof.
  intros Hpk Hnd Hbump.
  destruct (staged_then_bump (version options) StdioIgnore w pkgs Hpk Hnd)
    as (w1 & Ht1 & Hstart).
  unfold publishToNpm. rewrite Hstart.
  rewrite (bind_thrown _ _ _ _ _ (execSync_failed _ StdioIgnore w1 (Hbump w1))).
  cbn [fst snd trace emit setFiles afterExec].
  split; [reflexivity|]. rewrite Ht1, <- !app_assoc. reflexivity.
Qed.

End Runs.

(* ===================================================================== *)
(** ** Further properties of the staging copy *)
(* ===================================================================== *)

Module CopyFacts.

Local Open Scope list_scope.

Lemma unbind_unbind (n : string) (es : Fs.Entries) :
  Fs.unbind n (Fs.unbind n es) = Fs.unbind n es.
Proof.
  induction es as [|[m x] es IH]; cbn [Fs.unbind]; [reflexivity|].
  destruct (String.eqb n m) eqn:E; [exact IH|].
  cbn [Fs.unbind]. rewrite E, IH. reflexivity.
Qed.

Lemma unbind_assign (n : string) (v : Fs.Node) (es : Fs.Entries) :
  Fs.unbind n (Fs.assign n v es) = Fs.unbind n es.
Proof.
  induction es as [|[m x] es IH]; cbn [Fs.unbind Fs.assign].
  - rewrite String.eqb_refl. reflexivity.
  - destruct (String.eqb n m) eqn:E; cbn [Fs.unbind]; rewrite E;
      [reflexivity|]. rewrite IH. reflexivity.
Qed.

Lemma lookup_app (name : string) (es fs : Fs.Entries) :
  Fs.lookup name (es ++ fs) =
  match Fs.lookup name es with
  | Some v => Some v
  | None => Fs.lookup name fs
  end.
Proof.
  induction es as [|[m x] es IH]; cbn [Fs.lookup app]; [reflexivity|].
  destruct (String.eqb name m); [reflexivity|exact IH].
Qed.

Lemma onlyBuild_ret {A : Type} (a : A) : onlyBuild (ret a).
Proof. intros w. split; reflexivity. Qed.

Lemma onlyBuild_bind {A B : Type} (m : M A) (k : A -> M B) :
  onlyBuild m -> (forall a, onlyBuild (k a)) -> onlyBuild (bind m k).
Proof.
  intros Hm Hk w. unfold bind. destruct (Hm w) as [Hf Hc].
  destruct (m w) as [[a|e|code] w1]; cbn [fst snd] in *; try (split; assumption).
  destruct (Hk a w1) as [Hf' Hc']. split; congruence.
Qed.

Lemma onlyBuild_if {A : Type} (c : bool) (m1 m2 : M A) :
  onlyBuild m1 -> onlyBuild m2 -> onlyBuild (if c then m1 else m2).
Proof. destruct c; auto. Qed.

Lemma onlyBuild_fsRemove : onlyBuild (fsRemove buildDir).
Proof. intros w. split; [apply unbind_unbind|reflexivity]. Qed.

Lemma onlyBuild_fsEnsureDir : onlyBuild (fsEnsureDir buildDir).
Proof.
  intros w. unfold fsEnsureDir. cbn [files emit buildDir Fs.walk Fs.write].
  destruct (Fs.lookup "build" (files w)) as [[|]|]; cbn [snd files cwd emit setFiles];
    split; try reflexivity.
  apply unbind_assign.
Qed.

Lemma onlyBuild_fsReaddir (p : Fs.Path) : onlyBuild (fsReaddir p).
Proof.
  intros w. unfold fsReaddir.
  destruct (Fs.walk _ p) as [[|]|]; split; reflexivity.
Qed.

Lemma onlyBuild_fsStat (p : Fs.Path) : onlyBuild (fsStat p).
Proof.
  intros w. unfold fsStat. destruct (Fs.walk _ p); split; reflexivity.
Qed.

Lemma onlyBuild_fsCopy (src : Fs.Path) (pkg : string) (filter : string -> bool) :
  onlyBuild (fsCopy src (buildDir ++ [pkg]) filter).
Proof.
  intros w. unfold fsCopy. cbn [files cwd emit].
  destruct (Fs.walk _ src) as [n|]; [|split; reflexivity].
  destruct (Fs.copyTree filter _ n) as [img|]; [|split; reflexivity].
  destruct (Fs.overlay _ img) as [merged|]; [|split; reflexivity].
  cbn [buildDir app Fs.write].
  destruct (Fs.lookup "build" (files w)) as [[data|es]|];
    cbn [Fs.write snd files cwd emit setFiles]; split; try reflexivity.
  apply unbind_assign.
Qed.

Lemma onlyBuild_copyEach (packageDirs : list string) : onlyBuild (copyEach packageDirs).
Proof.
  induction packageDirs as [|pkg rest IH]; cbn [copyEach].
  - apply onlyBuild_ret.
  - apply onlyBuild_bind; [apply onlyBuild_fsStat|]. intros stats.
    apply onlyBuild_if; [exact IH|].
    apply onlyBuild_bind; [apply onlyBuild_fsCopy|]. intros _. exact IH.
Qed.

Lemma onlyBuild_copyPackagesToBuild : onlyBuild copyPackagesToBuild.
Proof.
  unfold copyPackagesToBuild.
  apply onlyBuild_bind; [apply onlyBuild_fsRemove|]. intros _.
  apply onlyBuild_bind; [apply onlyBuild_fsEnsureDir|]. intros _.
  apply onlyBuild_bind; [apply onlyBuild_fsReaddir|]. intros packageDirs.
  apply onlyBuild_copyEach.
Qed.

Lemma diskOnly_ret {A : Type} (a : A) : diskOnly (ret a).
Proof. intros w w' Hf Hc. auto. Qed.

Lemma diskOnly_bind {A B : Type} (m : M A) (k : A -> M B) :
  diskOnly m -> (forall a, diskOnly (k a)) -> diskOnly (bind m k).
Proof.
  intros Hm Hk w w' Hf Hc. unfold bind.
  destruct (Hm w w' Hf Hc) as (Ho & Hf1 & Hc1).
  destruct (m w) as [o1 w1], (m w') as [o1' w1']. cbn [fst snd] in *. subst o1'.
  destruct o1 as [a|e|code]; cbn [fst snd]; auto.
  apply Hk; assumption.
Qed.

Lemma diskOnly_if {A : Type} (c : bool) (m1 m2 : M A) :
  diskOnly m1 -> diskOnly m2 -> diskOnly (if c then m1 else m2).
Proof. destruct c; auto. Qed.

Ltac same_disk :=
  intros [a1 e1 c1 f1 t1] [a2 e2 c2 f2 t2] Hf Hc;
  cbn [files cwd] in Hf, Hc; subst f2 c2.

Lemma diskOnly_fsRemove (p : Fs.Path) : diskOnly (fsRemove p).
Proof.
  same_disk. unfold fsRemove. cbn [files cwd emit].
  destruct (Fs.erase p _); auto.
Qed.

Lemma diskOnly_fsEnsureDir (p : Fs.Path) : diskOnly (fsEnsureDir p).
Proof.
  same_disk. unfold fsEnsureDir. cbn [files cwd emit].
  destruct (Fs.walk _ p) as [[|]|]; auto.
  destruct (Fs.write p _ _) as [[|]|]; auto.
Qed.

Lemma diskOnly_fsReaddir (p : Fs.Path) : diskOnly (fsReaddir p).
Proof.
  same_disk. unfold fsReaddir. cbn [files cwd emit].
  destruct (Fs.walk _ p) as [[|]|]; auto.
Qed.

Lemma diskOnly_fsStat (p : Fs.Path) : diskOnly (fsStat p).
Proof.
  same_disk. unfold fsStat. cbn [files cwd emit].
  destruct (Fs.walk _ p); auto.
Qed.

Lemma diskOnly_fsCopy (src dest : Fs.Path) (filter : string -> bool) :
  diskOnly (fsCopy src dest filter).
Proof.
  same_disk. unfold fsCopy. cbn [files cwd emit].
  destruct (Fs.walk _ src) as [n|]; auto.
  destruct (Fs.copyTree filter _ n) as [img|]; auto.
  destruct (Fs.overlay _ img) as [merged|]; auto.
  destruct (Fs.write dest merged _) as [[|]|]; auto.
Qed.

Lemma diskOnly_copyEach (packageDirs : list string) : diskOnly (copyEach packageDirs).
Proof.
  induction packageDirs as [|pkg rest IH]; cbn [copyEach].
  - apply diskOnly_ret.
  - apply diskOnly_bind; [apply diskOnly_fsStat|]. intros stats.
    apply diskOnly_if; [exact IH|].
    apply diskOnly_bind; [apply diskOnly_fsCopy|]. intros _. exact IH.
Qed.

(** What follows the removal of the build directory in
    [copyPackagesToBuild]. *)
Lemma diskOnly_after_remove :
  diskOnly (fsEnsureDir buildDir ;;
            packageDirs <- fsReaddir packagesDir ;;
            copyEach packageDirs).
Proof.
  apply diskOnly_bind; [apply diskOnly_fsEnsureDir|]. intros _.
  apply diskOnly_bind; [apply diskOnly_fsReaddir|]. intros packageDirs.
  apply diskOnly_copyEach.
Qed.

Lemma render_extends (cwd : string) (p : Fs.Path) :
  exists tail, Fs.render cwd p = (cwd ++ tail)%string.
Proof.
  unfold Fs.render. revert cwd. induction p as [|name p IH]; intros cwd.
  - exists EmptyString. cbn. induction cwd as [|c s IHs]; cbn; [reflexivity|].
    rewrite <- IHs. reflexivity.
  - cbn [fold_left].
    destruct (StagingFacts.pathJoin_extends cwd name) as (t1 & ->).
    destruct (IH (cwd ++ t1)%string) as (t2 & ->).
    exists (t1 ++ t2)%string. apply append_assoc.
Qed.

Lemma pathJoin_ends (dir name : string) :
  exists head, Fs.pathJoin dir name = (head ++ name)%string.
Proof.
  unfold Fs.pathJoin. destruct (Fs.endsWithSlash dir).
  - exists dir. reflexivity.
  - exists (dir ++ "/")%string. rewrite append_assoc. reflexivity.
Qed.

End CopyFacts.

(** X12.  Without a packages directory (none, or a file of that name) the
    copy fails when it lists it, and by then the build directory has
    already been removed and created again: what was built before is lost
    and an empty build directory is left. *)
Theorem copyPackagesToBuild_missing_packages (w : World) :
  (forall es, Fs.lookup "packages" (files w) <> Some (Fs.Dir es)) ->
  copyPackagesToBuild w =
  (Thrown (FsError "scandir" (Fs.render (cwd w) ["packages"])),
   mkWorld (argv w) (env_CI w) (cwd w)
           (Fs.unbind "build" (files w) ++ [("build", Fs.Dir [])])%list
           (trace w ++
            [FsRemove (Fs.render (cwd w) ["build"]);
             FsEnsureDir (Fs.render (cwd w) ["build"]);
             FsReaddir (Fs.render (cwd w) ["packages"])])%list).
Proof.
  intros Hpk.
  pose proof (FsFacts.lookup_unbind_same "build" (files w)) as Hbuild.
  set (w1 := setFiles (Fs.unbind "build" (files w))
               (emit (FsRemove (Fs.render (cwd w) buildDir)) w)).
  set (w2 := setFiles (Fs.assign "build" (Fs.Dir []) (Fs.unbind "build" (files w)))
               (emit (FsEnsureDir (Fs.render (cwd w) buildDir)) w1)).
  set (w3 := emit (FsReaddir (Fs.render (cwd w) packagesDir)) w2).
  assert (Hpk2 : forall es, Fs.lookup "packages" (files w2) <> Some (Fs.Dir es)).
  { intros es. cbn [files w2 setFiles].
    rewrite FsFacts.lookup_assign_other, FsFacts.lookup_unbind_other
      by discriminate. apply Hpk. }
  unfold copyPackagesToBuild.
  rewrite (bind_returned (fsRemove buildDir) _ w w1 tt eq_refl).
  assert (fsEnsureDir buildDir w1 = (Returned tt, w2)) as E2.
  { unfold fsEnsureDir. cbn [files emit Fs.walk buildDir w1 setFiles].
    rewrite Hbuild. reflexivity. }
  rewrite (bind_returned _ _ w1 w2 tt E2).
  assert (fsReaddir packagesDir w2 =
          (Thrown (FsError "scandir" (Fs.render (cwd w) packagesDir)), w3)) as E3.
  { unfold fsReaddir. cbn [files emit Fs.walk packagesDir].
    destruct (Fs.lookup "packages" (files w2)) as [[data|es]|] eqn:E;
      [reflexivity | exfalso; exact (Hpk2 es eq_refl) | reflexivity]. }
  rewrite (bind_thrown _ _ w2 w3 _ E3).
  f_equal. subst w3 w2 w1. unfold emit, setFiles.
  cbn [argv env_CI cwd files trace].
  rewrite (FsFacts.assign_unbound _ _ _ Hbuild), <- !app_assoc. reflexivity.
Qed.

Lemma copyPackagesToBuild_missing_packages_witness :
  fst (copyPackagesToBuild
         (mkWorld [] None "/repo"
            [("build", Fs.Dir [("stale.txt", Fs.File [Byte.x6f])])] [])) =
  Thrown (FsError "scandir" "/repo/packages") /\
  files (snd (copyPackagesToBuild
                (mkWorld [] None "/repo"
                   [("build", Fs.Dir [("stale.txt", Fs.File [Byte.x6f])])] []))) =
  [("build", Fs.Dir [])].
Proof.
  rewrite (copyPackagesToBuild_missing_packages
             (mkWorld [] None "/repo"
                [("build", Fs.Dir [("stale.txt", Fs.File [Byte.x6f])])] []));
    [split; reflexivity|].
  intros es. discriminate.
Defined.

(** X13.  The copy writes below the build directory only: whether it
    succeeds or fails, every other entry of the working directory, the
    packages directory first of all, is left as it was. *)
Theorem copyPackagesToBuild_touches_only_build (w : World) (name : string) :
  name <> "build" ->
  Fs.lookup name (files (snd (copyPackagesToBuild w))) = Fs.lookup name (files w).
Proof.
  intros Hname.
  destruct (CopyFacts.onlyBuild_copyPackagesToBuild w) as [H _].
  rewrite <- (FsFacts.lookup_unbind_other name "build" (files w) Hname).
  rewrite <- H. symmetry. apply FsFacts.lookup_unbind_other, Hname.
Qed.

Lemma copyPackagesToBuild_touches_only_build_witness :
  Fs.lookup "packages"
    (files (snd (copyPackagesToBuild (sampleWorld None ["1.2.0"])))) =
  Fs.lookup "packages" sampleFiles.
Proof.
  apply (copyPackagesToBuild_touches_only_build (sampleWorld None ["1.2.0"])
           "packages").
  discriminate.
Defined.

(** X14.  The copy is idempotent: a second run right after the first ends
    the same way and leaves the same files, since the build directory is
    made anew from the packages directory each time. *)
Theorem copyPackagesToBuild_idempotent (w : World) :
  let w1 := snd (copyPackagesToBuild w) in
  fst (copyPackagesToBuild w1) = fst (copyPackagesToBuild w) /\
  files (snd (copyPackagesToBuild w1)) = files w1.
Proof.
  intros w1.
  destruct (CopyFacts.onlyBuild_copyPackagesToBuild w) as [Hf Hc].
  fold w1 in Hf, Hc.
  assert (Hsplit : forall x,
             copyPackagesToBuild x =
             (fsEnsureDir buildDir ;;
              packageDirs <- fsReaddir packagesDir ;;
              copyEach packageDirs)
               (setFiles (Fs.unbind "build" (files x))
                  (emit (FsRemove (Fs.render (cwd x) buildDir)) x)))
    by reflexivity.
  rewrite (Hsplit w1). unfold w1 at 2 3. rewrite (Hsplit w).
  destruct (CopyFacts.diskOnly_after_remove
              (setFiles (Fs.unbind "build" (files w1))
                 (emit (FsRemove (Fs.render (cwd w1) buildDir)) w1))
              (setFiles (Fs.unbind "build" (files w))
                 (emit (FsRemove (Fs.render (cwd w) buildDir)) w)))
    as (Ho & Hfiles & _).
  - exact Hf.
  - exact Hc.
  - split; [exact Ho|exact Hfiles].
Qed.

Lemma copyFilter_marker (path : string) :
  Js.includes path "node_modules" = true \/ Js.includes path "__tests__" = true ->
  copyFilter path = false.
Proof.
  unfold copyFilter. intros [H|H]; rewrite H; [reflexivity|apply andb_false_r].
Qed.

Lemma entries_without_lookup (es : Fs.Entries) :
  (forall name, Fs.lookup name es = None) -> es = [].
Proof.
  destruct es as [|[n v] es]; [reflexivity|].
  intros H. specialize (H n). cbn in H. rewrite String.eqb_refl in H.
  discriminate.
Qed.

(** X15.  The filter looks for the two markers anywhere in the absolute
    source path, not only in the names below a package: a package whose own
    name contains [node_modules] or [__tests__] is not staged at all, and
    when the path of the working directory contains one of them the build
    directory is left empty. *)
Theorem copyPackagesToBuild_path_markers (w : World) (pkgs : Fs.Entries) :
  Fs.lookup "packages" (files w) = Some (Fs.Dir pkgs) ->
  NoDup (map fst pkgs) ->
  exists staged : Fs.Entries,
    fst (copyPackagesToBuild w) = Returned tt /\
    Fs.lookup "build" (files (snd (copyPackagesToBuild w))) =
      Some (Fs.Dir staged) /\
    (forall name,
       Js.includes name "node_modules" = true \/
       Js.includes name "__tests__" = true ->
       Fs.lookup name staged = None) /\
    (Js.includes (cwd w) "node_modules" = true \/
     Js.includes (cwd w) "__tests__" = true ->
     staged = []).
Proof.
  intros Hpk Hnd.
  destruct (StagingFacts.copyPackagesToBuild_run w pkgs Hpk Hnd)
    as (staged & Hrun & Hstaged).
  assert (Hskip : forall name,
             copyFilter (Fs.render (cwd w) (packagesDir ++ [name])%list) = false ->
             Fs.lookup name staged = None).
  { intros name Hf. rewrite Hstaged.
    destruct (Fs.lookup name pkgs) as [n|]; [|reflexivity].
    unfold stagedEntry. rewrite FsFacts.copyTree_unfold, Hf.
    destruct (Fs.isDirectory n); reflexivity. }
  exists staged. rewrite Hrun. cbn [fst snd files].
  split; [reflexivity|]. split; [|split].
  - rewrite CopyFacts.lookup_app, FsFacts.lookup_unbind_same. reflexivity.
  - intros name Hname. apply Hskip, copyFilter_marker.
    rewrite FsFacts.render_app. cbn [fold_left].
    destruct (CopyFacts.pathJoin_ends (Fs.render (cwd w) packagesDir) name)
      as (head & ->).
    destruct Hname as [H|H]; [left|right]; apply JsFacts.includes_app_r, H.
  - intros Hcwd. apply entries_without_lookup. intros name.
    apply Hskip, copyFilter_marker.
    destruct (CopyFacts.render_extends (cwd w) (packagesDir ++ [name])%list)
      as (tail & ->).
    destruct Hcwd as [H|H]; [left|right]; apply JsFacts.includes_app_l, H.
Qed.

Lemma copyPackagesToBuild_path_markers_witness :
  Fs.lookup "build"
    (files (snd (copyPackagesToBuild
                   (mkWorld [] None "/home/dev/node_modules/tusky" sampleFiles []))))
  = Some (Fs.Dir []).
Proof.
  destruct (copyPackagesToBuild_path_markers
              (mkWorld [] None "/home/dev/node_modules/tusky" sampleFiles [])
              [ ("ui",
                 Fs.Dir
                   [ ("src",
                      Fs.Dir
                        [ ("rating.tsx", Fs.File [Byte.x52; Byte.x0a]);
                          ("__tests__",
                           Fs.Dir [("rating.spec.tsx", Fs.File [Byte.x54])]) ]);
                     ("node_modules", Fs.Dir [("clsx", Fs.Dir [])]);
                     ("package.json", Fs.File [Byte.x7b; Byte.x7d]) ]);
                ("README.md", Fs.File [Byte.x23]) ])
    as (staged & _ & Hbuild & _ & Hempty).
  - reflexivity.
  - repeat constructor; simpl; intuition discriminate.
  - rewrite Hbuild, Hempty; [reflexivity|]. left. reflexivity.
Defined.

(* ===================================================================== *)
(** ** Arguments and paths together *)
(* ===================================================================== *)

Lemma bind_assoc_at {A B C : Type} (m : M A) (k : A -> M B) (h : B -> M C) (w : World) :
  bind (bind m k) h w = bind m (fun a => bind (k a) h) w.
Proof. unfold bind. destruct (m w) as [[a|e|code] w1]; reflexivity. Qed.

Section ArgumentsAndPaths.

Local Open Scope list_scope.

Variable shell : string -> World -> ExecResult.

(** X16.  A local run without a positional argument always fails: the
    default version [minor] is a relative keyword, so the staging path
    rejects it before doing anything. *)
Theorem local_run_without_version_fails (w : World) :
  Js.truthyOpt (env_CI w) = false ->
  (forall a, In a (skipn 2 (argv w)) -> Js.startsWith a "--" = true) ->
  main shell w = (Thrown (Error invalidVersionMessage), w).
Proof.
  intros Hci Hflags. unfold main. rewrite Hci. cbn [negb].
  unfold createGitHubRelease, parseArgs.
  rewrite (ParseArgsFacts.loop_version_kept _ _ Hflags). reflexivity.
Qed.

(** X17.  The guard of the staging path rejects the seven keywords and
    nothing else: for every other version text, well formed or not, the run
    goes on, prints its first line and removes the build directory. *)
Theorem staging_guard_only_keywords (options : Options) (w : World) :
  ~ In (version options)
       ["major"; "minor"; "patch"; "premajor"; "preminor"; "prepatch";
        "prerelease"] ->
  exists events,
    trace (snd (createGitHubRelease shell options w)) =
    trace w ++
    ConsoleLog "Copying packages to build directory..." ::
    FsRemove (Fs.render (cwd w) ["build"]) :: events.
Proof.
  intros Hkw.
  assert (isRelativeVersionKeyword (version options) = false) as Hguard.
  { destruct (isRelativeVersionKeyword (version options)) eqn:E; [|reflexivity].
    exfalso. apply Hkw, isRelativeVersionKeyword_iff, E. }
  unfold createGitHubRelease. rewrite Hguard.
  rewrite (bind_returned (consoleLog _) _ w _ tt eq_refl).
  unfold copyPackagesToBuild. rewrite bind_assoc_at.
  rewrite (bind_returned (fsRemove buildDir) _ _ _ tt eq_refl).
  match goal with
  | |- context [trace (snd (?m ?x))] =>
      assert (Hruns : runs (fun _ => True) (fun _ => True) m)
  end.
  { assert (Hany : forall e : Event,
               match e with
               | ExecSync _ _ => False | ConsoleLog _ => False | _ => True
               end -> True) by auto.
    assert (Hq : forall e, externalFailure e -> True) by auto.
    apply RunFacts.runs_bind.
    - apply RunFacts.runs_bind; [apply RunFacts.runs_fsEnsureDir; auto|].
      intros _.
      apply RunFacts.runs_bind; [apply RunFacts.runs_fsReaddir; auto|].
      intros packageDirs. apply RunFacts.runs_copyEach; auto.
    - intros _.
      apply RunFacts.runs_bind; [apply RunFacts.runs_consoleLog; exact I|].
      intros _.
      apply RunFacts.runs_bind; [apply RunFacts.runs_execSync; auto|].
      intros _.
      apply RunFacts.runs_bind; [apply RunFacts.runs_consoleLog; exact I|].
      intros _.
      apply RunFacts.runs_bind; [apply RunFacts.runs_execSync; auto|].
      intros _.
      apply RunFacts.runs_bind; [apply RunFacts.runs_consoleLog; exact I|].
      intros _. apply RunFacts.runs_exit. }
  match goal with
  | |- context [trace (snd (_ ?x))] => destruct (Hruns x) as (events & Ht & _)
  end.
  exists events. rewrite Ht. cbn [trace emit setFiles].
  rewrite <- !app_assoc. reflexivity.
Qed.

End ArgumentsAndPaths.

(** X18.  How the parsed options reach the changelog command: with a
    version and no flag the command targets the remote [origin]; a
    [--git-remote=] or [--from=] flag with an empty value leaves the
    corresponding option out of the command, the remote does not fall back
    to [origin]. *)
Theorem changelogCmd_of_arguments (node script v : string) :
  Js.startsWith v "--" = false ->
  changelogCmd (parseArgs [node; script; v]) =
    "pnpm nx release changelog " ++ v ++
    " --interactive workspace --git-remote origin" /\
  changelogCmd (parseArgs [node; script; v; "--from="]) =
    "pnpm nx release changelog " ++ v ++
    " --interactive workspace --git-remote origin" /\
  changelogCmd (parseArgs [node; script; v; "--git-remote="]) =
    "pnpm nx release changelog " ++ v ++ " --interactive workspace".
Proof.
  intros Hv.
  assert (Hfirst : parseArg defaultOptions v = mkOptions v false None "origin").
  { destruct (ParseArgsFacts.flag_not_positional v Hv) as (H1 & H2 & H3).
    unfold parseArg. rewrite Hv, H1, H2, H3. reflexivity. }
  unfold parseArgs. cbn [skipn fold_left]. rewrite Hfirst.
  unfold changelogCmd. cbn. rewrite !append_assoc. auto.
Qed.

Lemma local_run_without_version_fails_witness :
  main (sampleShell None) (sampleWorld None ["--dry-run"; "--from=v1.0.0"]) =
  (Thrown (Error invalidVersionMessage),
   sampleWorld None ["--dry-run"; "--from=v1.0.0"]).
Proof.
  apply (local_run_without_version_fails (sampleShell None)
           (sampleWorld None ["--dry-run"; "--from=v1.0.0"])).
  - reflexivity.
  - intros a [<-|[<-|[]]]; reflexivity.
Defined.

Lemma staging_guard_only_keywords_witness :
  exists events,
    trace (snd (createGitHubRelease (sampleShell None)
                  (mkOptions "Minor" false None "origin") (sampleWorld None ["Minor"]))) =
    (ConsoleLog "Copying packages to build directory..." ::
     FsRemove "/repo/build" :: events)%list.
Proof.
  apply (staging_guard_only_keywords (sampleShell None)
           (mkOptions "Minor" false None "origin") (sampleWorld None ["Minor"])).
  cbn. intuition discriminate.
Defined.

Lemma changelogCmd_of_arguments_witness :
  changelogCmd (parseArgs ["node"; "scripts/release.ts"; "1.2.0"; "--git-remote="]) =
  "pnpm nx release changelog 1.2.0 --interactive workspace".
Proof.
  apply (changelogCmd_of_arguments "node" "scripts/release.ts" "1.2.0").
  reflexivity.
Defined.

Lemma staging_complete_run_witness :
  fst (createGitHubRelease (sampleShell None)
         (mkOptions "1.2.0" true None "origin") (sampleWorld None ["1.2.0"; "--dry-run"]))
  = Exited 0.
Proof.
  apply (staging_complete_run (sampleShell None)
           (mkOptions "1.2.0" true None "origin")
           (sampleWorld None ["1.2.0"; "--dry-run"])
           [ ("ui",
              Fs.Dir
                [ ("src",
                   Fs.Dir
                     [ ("rating.tsx", Fs.File [Byte.x52; Byte.x0a]);
                       ("__tests__",
                        Fs.Dir [("rating.spec.tsx", Fs.File [Byte.x54])]) ]);
                  ("node_modules", Fs.Dir [("clsx", Fs.Dir [])]);
                  ("package.json", Fs.File [Byte.x7b; Byte.x7d]) ]);
             ("README.md", Fs.File [Byte.x23]) ]).
  - reflexivity.
  - reflexivity.
  - repeat constructor; simpl; intuition discriminate.
  - intros w'. cbn. discriminate.
  - intros w'. cbn. discriminate.
Defined.

Lemma staging_command_failure_witness :
  fst (createGitHubRelease
         (shellFailingOn "pnpm nx release version --specifier 1.2.0")
         (mkOptions "1.2.0" false None "origin") (sampleWorld None ["1.2.0"]))
  = Thrown (ExecError "pnpm nx release version --specifier 1.2.0").
Proof.
  destruct (staging_command_failure
              (shellFailingOn "pnpm nx release version --specifier 1.2.0")
              (mkOptions "1.2.0" false None "origin")
              (sampleWorld None ["1.2.0"])
              [ ("ui",
                 Fs.Dir
                   [ ("src",
                      Fs.Dir
                        [ ("rating.tsx", Fs.File [Byte.x52; Byte.x0a]);
                          ("__tests__",
                           Fs.Dir [("rating.spec.tsx", Fs.File [Byte.x54])]) ]);
                     ("node_modules", Fs.Dir [("clsx", Fs.Dir [])]);
                     ("package.json", Fs.File [Byte.x7b; Byte.x7d]) ]);
                ("README.md", Fs.File [Byte.x23]) ])
    as (H & _).
  - reflexivity.
  - reflexivity.
  - repeat constructor; simpl; intuition discriminate.
  - apply H. intros w'. reflexivity.
Defined.

Lemma publish_complete_run_witness :
  exists distTag,
    last (trace (snd (publishToNpm (sampleShell (Some "2.0.0"))
                        (mkOptions "1.2.0" false None "origin")
                        (sampleWorld (Some "true") ["1.2.0"]))))
         (ConsoleLog EmptyString) =
    ExecSync (publishCmd distTag) StdioInherit.
Proof.
  destruct (publish_complete_run (sampleShell (Some "2.0.0"))
              (mkOptions "1.2.0" false None "origin")
              (sampleWorld (Some "true") ["1.2.0"])
              [ ("ui",
                 Fs.Dir
                   [ ("src",
                      Fs.Dir
                        [ ("rating.tsx", Fs.File [Byte.x52; Byte.x0a]);
                          ("__tests__",
                           Fs.Dir [("rating.spec.tsx", Fs.File [Byte.x54])]) ]);
                     ("node_modules", Fs.Dir [("clsx", Fs.Dir [])]);
                     ("package.json", Fs.File [Byte.x7b; Byte.x7d]) ]);
                ("README.md", Fs.File [Byte.x23]) ])
    as (distTag & query & w3 & _ & _ & _ & Hlast & _).
  - reflexivity.
  - reflexivity.
  - repeat constructor; simpl; intuition discriminate.
  - intros w'. cbn. discriminate.
  - exists distTag. rewrite Hlast. apply last_last.
Defined.

Lemma publish_bump_failure_witness :
  fst (publishToNpm
         (shellFailingOn "pnpm nx release version --specifier 1.2.0")
         (mkOptions "1.2.0" false None "origin")
         (sampleWorld (Some "true") ["1.2.0"]))
  = Thrown (ExecError "pnpm nx release version --specifier 1.2.0").
Proof.
  apply (publish_bump_failure
           (shellFailingOn "pnpm nx release version --specifier 1.2.0")
           (mkOptions "1.2.0" false None "origin")
           (sampleWorld (Some "true") ["1.2.0"])
           [ ("ui",
              Fs.Dir
                [ ("src",
                   Fs.Dir
                     [ ("rating.tsx", Fs.File [Byte.x52; Byte.x0a]);
                       ("__tests__",
                        Fs.Dir [("rating.spec.tsx", Fs.File [Byte.x54])]) ]);
                  ("node_modules", Fs.Dir [("clsx", Fs.Dir [])]);
                  ("package.json", Fs.File [Byte.x7b; Byte.x7d]) ]);
             ("README.md", Fs.File [Byte.x23]) ]).
  - reflexivity.
  - repeat constructor; simpl; intuition discriminate.
  - intros w'. reflexivity.
Defined.

(* ===================================================================== *)
(** ** The exit of the staging path *)
(* ===================================================================== *)

Module ExitFacts.











End ExitFacts.

Section StagingExit.

Local Open Scope list_scope.

Variable shell : string -> World -> ExecResult.


End StagingExit.

(* ===================================================================== *)
(** ** The two paths, state by state *)
(* ===================================================================== *)

Section PathsInFull.

Local Open Scope list_scope.

Variable shell : string -> World -> ExecResult.


Lemma trace_afterExec (cmd : string) (io : Stdio) (x : World) :
  trace (afterExec shell cmd io x) = trace x ++ [ExecSync cmd io].
Proof. reflexivity. Qed.

(** The publish path when the copy and the version bump succeed, with every
    state it goes through: [w2] is the state in which the tag is resolved,
    [distTag] the tag, [w3] the state in which the dry run is decided. *)
Lemma publishToNpm_explicit (options : Options) (w : World) (pkgs : Fs.Entries) :
  Fs.lookup "packages" (files w) = Some (Fs.Dir pkgs) ->
  NoDup (map fst pkgs) ->
  (forall w', exec_stdout (shell (versionCmd (version options)) w') <> None) ->
  let v := version options in
  let w0 := emit (ConsoleLog "Copying packages to build directory...") w in
  let w1 := emit (ConsoleLog ("Bumping versions to " ++ v ++ "..."))
                 (snd (copyPackagesToBuild w0)) in
  let w2 := afterExec shell (versionCmd v) StdioIgnore w1 in
  let distTag :=
    if isNextPrerelease v then "next"%string
    else match exec_stdout (shell npmViewCmd w2) with
         | Some out =>
             if Js.truthy (Js.trim out) && isOlderMajor v (Js.trim out)
             then "previous"%string else "latest"%string
         | None => "latest"%string
         end in
  let w3 := emit (ConsoleLog ("Publishing with tag: " ++ distTag))
                 (if isNextPrerelease v then w2
                  else afterExec shell npmViewCmd StdioPipe w2) in
  fst (copyPackagesToBuild w0) = Returned tt /\
  trace w3 =
    trace w ++
    [ConsoleLog "Copying packages to build directory..."] ++
    copyPackagesEvents (cwd w) pkgs ++
    [ConsoleLog ("Bumping versions to " ++ v ++ "...");
     ExecSync (versionCmd v) StdioIgnore] ++
    (if isNextPrerelease v then [] else [ExecSync npmViewCmd StdioPipe]) ++
    [ConsoleLog ("Publishing with tag: " ++ distTag)] /\
  publishToNpm shell options w =
    if dryRun options then
      (Exited 0,
       emit (ConsoleLog ("[DRY RUN] Would execute: " ++ publishCmd distTag)) w3)
    else
      match exec_stdout (shell (publishCmd distTag) w3) with
      | Some _ =>
          (Returned tt, afterExec shell (publishCmd distTag) StdioInherit w3)
      | None =>
          (Thrown (ExecError (publishCmd distTag)),
           afterExec shell (publishCmd distTag) StdioInherit w3)
      end.
Proof.
  intros Hpk Hnd Hbump v w0 w1 w2 distTag w3.
  destruct (StagingFacts.copyPackagesToBuild_run w0 pkgs Hpk Hnd)
    as (staged & Hcopy & _).
  match type of Hcopy with _ = (_, ?x) => set (wc := x) in * end.
  assert (Hw1 : w1 = emit (ConsoleLog ("Bumping versions to " ++ v ++ "...")) wc)
    by (unfold w1; rewrite Hcopy; reflexivity).
  split; [rewrite Hcopy; reflexivity|]. split.
  - unfold w3, w2.
    destruct (isNextPrerelease v);
      cbn [trace emit setFiles afterExec]; rewrite Hw1;
      cbn [trace emit wc w0 cwd]; rewrite <- !app_assoc; reflexivity.
  - unfold publishToNpm. fold v.
    rewrite (bind_returned (consoleLog _) _ w w0 tt eq_refl).
    rewrite (bind_returned copyPackagesToBuild _ w0 wc tt Hcopy).
    rewrite (bind_returned (consoleLog _) _ wc w1 tt (eq_sym (f_equal (pair (Returned tt)) Hw1))).
    destruct (exec_stdout (shell (versionCmd v) w1)) as [out|] eqn:Hout;
      [|exfalso; exact (Hbump w1 Hout)].
    rewrite (bind_returned _ _ w1 w2 out)
      by (unfold execSync; rewrite Hout; reflexivity).
    assert (Htag : determineDistTag shell v w2 =
                   (Returned distTag,
                    if isNextPrerelease v then w2
                    else afterExec shell npmViewCmd StdioPipe w2)).
    { unfold distTag. destruct (isNextPrerelease v) eqn:Hpre.
      - unfold determineDistTag. rewrite Hpre. reflexivity.
      - apply determineDistTag_after_query, Hpre. }
    rewrite (bind_returned _ _ w2 _ distTag Htag).
    rewrite (bind_returned (consoleLog _) _ _ w3 tt eq_refl).
    destruct (dryRun options).
    + reflexivity.
    + rewrite (bind_returned (ret tt) _ w3 w3 tt eq_refl).
      unfold bind, execSync.
      destruct (exec_stdout (shell (publishCmd distTag) w3)); reflexivity.
Qed.

(** The staging path when the copy and both commands succeed. *)
Lemma createGitHubRelease_complete (options : Options) (w : World) (pkgs : Fs.Entries) :
  isRelativeVersionKeyword (version options) = false ->
  Fs.lookup "packages" (files w) = Some (Fs.Dir pkgs) ->
  NoDup (map fst pkgs) ->
  (forall w', exec_stdout (shell (versionCmd (version options)) w') <> None) ->
  (forall w', exec_stdout (shell (changelogCmd options) w') <> None) ->
  fst (createGitHubRelease shell options w) = Exited 0 /\
  trace (snd (createGitHubRelease shell options w)) =
    trace w ++
    [ConsoleLog "Copying packages to build directory..."] ++
    copyPackagesEvents (cwd w) pkgs ++
    [ConsoleLog ("Bumping versions to " ++ version options ++ "...");
     ExecSync (versionCmd (version options)) StdioInherit;
     ConsoleLog "Creating changelog and GitHub Release...";
     ExecSync (changelogCmd options) StdioInherit;
     ConsoleLog (String "010"%char
                   "GitHub Release created! Check GitHub Actions for publish status.")].
Proof.
  intros Hkw Hpk Hnd Hbump Hlog.
  destruct (staged_then_bump shell (version options) StdioInherit w pkgs Hpk Hnd)
    as (w1 & Ht1 & Hstart).
  unfold createGitHubRelease. rewrite Hkw, Hstart.
  destruct (execSync_ok shell _ StdioInherit w1 (Hbump w1)) as (out1 & E1).
  rewrite (bind_returned _ _ _ _ _ E1).
  rewrite (bind_returned (consoleLog _) _ _ _ tt eq_refl).
  match goal with
  | |- context [bind (execSync shell (changelogCmd options) StdioInherit) _ ?x] =>
      destruct (execSync_ok shell (changelogCmd options) StdioInherit x (Hlog x))
        as (out2 & E2)
  end.
  rewrite (bind_returned _ _ _ _ _ E2).
  rewrite (bind_returned (consoleLog _) _ _ _ tt eq_refl).
  cbn [exit fst snd trace emit setFiles afterExec].
  split; [reflexivity|].
  rewrite Ht1, <- !app_assoc. reflexivity.
Qed.


(** C6.  The script looks at one marker, [process.env.CI], and at nothing
    else, to choose between two paths.
    - Without the marker, or with an empty one, the run is
      [createGitHubRelease]: its commands are the version bump and the
      changelog command, never the registry query or the publish command;
      for a literal version, when the copy and both commands succeed, the
      changelog command creating the hosted release is run and the process
      exits with status 0.
    - With a non-empty marker the run is [publishToNpm]: its commands are
      the version bump, the registry query and the publish command, never
      the changelog command; outside of a dry run, when the copy and the
      version bump succeed, the publish command is run last, with the
      resolved tag, and decides how the run ends.
    - Every run is one of the two. *)
Theorem main_branches_on_marker (w : World) :
  let options := parseArgs (argv w) in
  let v := version options in
  ((env_CI w = None \/ env_CI w = Some EmptyString) ->
   main shell w = createGitHubRelease shell options w /\
   (exists events,
      trace (snd (main shell w)) = trace w ++ events /\
      Forall (stagingEvent options) events /\
      forall distTag io,
        ~ In (ExecSync (publishCmd distTag) io) events /\
        ~ In (ExecSync npmViewCmd io) events) /\
   (forall pkgs,
      isRelativeVersionKeyword v = false ->
      Fs.lookup "packages" (files w) = Some (Fs.Dir pkgs) ->
      NoDup (map fst pkgs) ->
      (forall w', exec_stdout (shell (versionCmd v) w') <> None) ->
      (forall w', exec_stdout (shell (changelogCmd options) w') <> None) ->
      fst (main shell w) = Exited 0 /\
      trace (snd (main shell w)) =
        trace w ++
        [ConsoleLog "Copying packages to build directory..."] ++
        copyPackagesEvents (cwd w) pkgs ++
        [ConsoleLog ("Bumping versions to " ++ v ++ "...");
         ExecSync (versionCmd v) StdioInherit;
         ConsoleLog "Creating changelog and GitHub Release...";
         ExecSync (changelogCmd options) StdioInherit;
         ConsoleLog (String "010"%char
                       "GitHub Release created! Check GitHub Actions for publish status.")])) /\
  (forall marker,
     env_CI w = Some marker -> marker <> EmptyString ->
     main shell w = publishToNpm shell options w /\
     (exists events,
        trace (snd (main shell w)) = trace w ++ events /\
        Forall (publishEvent options) events /\
        forall io, ~ In (ExecSync (changelogCmd options) io) events) /\
     (forall pkgs,
        dryRun options = false ->
        Fs.lookup "packages" (files w) = Some (Fs.Dir pkgs) ->
        NoDup (map fst pkgs) ->
        (forall w', exec_stdout (shell (versionCmd v) w') <> None) ->
        let w0 := emit (ConsoleLog "Copying packages to build directory...") w in
        let w1 := emit (ConsoleLog ("Bumping versions to " ++ v ++ "..."))
                       (snd (copyPackagesToBuild w0)) in
        let w2 := afterExec shell (versionCmd v) StdioIgnore w1 in
        let distTag :=
          if isNextPrerelease v then "next"%string
          else match exec_stdout (shell npmViewCmd w2) with
               | Some out =>
                   if Js.truthy (Js.trim out) && isOlderMajor v (Js.trim out)
                   then "previous"%string else "latest"%string
               | None => "latest"%string
               end in
        let w3 := emit (ConsoleLog ("Publishing with tag: " ++ distTag))
                       (if isNextPrerelease v then w2
                        else afterExec shell npmViewCmd StdioPipe w2) in
        fst (main shell w) =
          match exec_stdout (shell (publishCmd distTag) w3) with
          | Some _ => Returned tt
          | None => Thrown (ExecError (publishCmd distTag))
          end /\
        trace (snd (main shell w)) =
          trace w ++
          [ConsoleLog "Copying packages to build directory..."] ++
          copyPackagesEvents (cwd w) pkgs ++
          [ConsoleLog ("Bumping versions to " ++ v ++ "...");
           ExecSync (versionCmd v) StdioIgnore] ++
          (if isNextPrerelease v then [] else [ExecSync npmViewCmd StdioPipe]) ++
          [ConsoleLog ("Publishing with tag: " ++ distTag);
           ExecSync (publishCmd distTag) StdioInherit])) /\
  (main shell w = createGitHubRelease shell options w \/
   main shell w = publishToNpm shell options w).
Proof.
  intros options v. split; [|split].
  - intros Habsent.
    assert (Hmain : main shell w = createGitHubRelease shell options w)
      by (unfold main; destruct Habsent as [-> | ->]; reflexivity).
    rewrite Hmain. split; [reflexivity|]. split.
    + destruct (createGitHubRelease_runs shell options w) as (events & Ht & Hp & _).
      exists events. split; [exact Ht|]. split; [exact Hp|].
      rewrite Forall_forall in Hp.
      intros distTag io. split; intros Hin; specialize (Hp _ Hin).
      * exact (stagingEvent_not_publish _ _ _ Hp).
      * exact (stagingEvent_not_query _ _ Hp).
    + intros pkgs Hkw Hpk Hnd Hbump Hlog.
      exact (createGitHubRelease_complete options w pkgs Hkw Hpk Hnd Hbump Hlog).
  - intros marker Hci Hne.
    assert (Hmain : main shell w = publishToNpm shell options w).
    { unfold main. rewrite Hci. destruct marker; [contradiction|reflexivity]. }
    rewrite Hmain. split; [reflexivity|]. split.
    + destruct (publishToNpm_runs shell options w) as (events & Ht & Hp & _).
      exists events. split; [exact Ht|]. split; [exact Hp|].
      rewrite Forall_forall in Hp.
      intros io Hin. exact (publishEvent_not_changelog _ _ (Hp _ Hin)).
    + intros pkgs Hdry Hpk Hnd Hbump.
      destruct (publishToNpm_explicit options w pkgs Hpk Hnd Hbump)
        as (_ & Ht3 & Hrun).
      cbv zeta in Ht3, Hrun |- *. fold v in Ht3, Hrun.
      rewrite Hdry in Hrun. rewrite Hrun.
      match goal with
      | |- context [exec_stdout (shell (publishCmd ?t) ?x)] =>
          destruct (exec_stdout (shell (publishCmd t) x))
      end;
        (split; [reflexivity|]);
        cbn [snd]; rewrite trace_afterExec, Ht3, <- !app_assoc; reflexivity.
  - unfold main. destruct (negb (Js.truthyOpt (env_CI w))); auto.
Qed.

End PathsInFull.

(** With [CI] set to the empty string the marker is present, and yet the
    run is the staging one, not the publish one: the sample run exits with
    0 after the changelog command, where [publishToNpm] would return after
    the publish command. *)
Lemma empty_marker_runs_staging :
  env_CI (sampleWorld (Some EmptyString) ["1.2.0"]) = Some EmptyString /\
  main (sampleShell None) (sampleWorld (Some EmptyString) ["1.2.0"]) =
  createGitHubRelease (sampleShell None)
    (parseArgs (argv (sampleWorld (Some EmptyString) ["1.2.0"])))
    (sampleWorld (Some EmptyString) ["1.2.0"]) /\
  main (sampleShell None) (sampleWorld (Some EmptyString) ["1.2.0"]) <>
  publishToNpm (sampleShell None)
    (parseArgs (argv (sampleWorld (Some EmptyString) ["1.2.0"])))
    (sampleWorld (Some EmptyString) ["1.2.0"]).
Proof.
  split; [reflexivity|]. split; [reflexivity|].
  intros H. apply (f_equal fst) in H. vm_compute in H. discriminate H.
Qed.


Lemma main_branches_on_marker_witness :
  main (sampleShell None) (sampleWorld None ["1.2.0"]) =
  createGitHubRelease (sampleShell None) (parseArgs ["node"; "scripts/release.ts"; "1.2.0"])
    (sampleWorld None ["1.2.0"]) /\
  main (sampleShell None) (sampleWorld (Some "true") ["1.2.0"]) =
  publishToNpm (sampleShell None) (parseArgs ["node"; "scripts/release.ts"; "1.2.0"])
    (sampleWorld (Some "true") ["1.2.0"]).
Proof.
  split.
  - destruct (main_branches_on_marker (sampleShell None) (sampleWorld None ["1.2.0"]))
      as (H & _ & _).
    destruct (H (or_introl eq_refl)) as (Hmain & _). exact Hmain.
  - destruct (main_branches_on_marker (sampleShell None)
                (sampleWorld (Some "true") ["1.2.0"])) as (_ & H & _).
    destruct (H "true" eq_refl) as (Hmain & _); [discriminate|exact Hmain].
Defined.
